(** * Lumber-yard point of sale: sale and inventory bookkeeping

    A shallow embedding of the transactional core of the REST backend:
    the sale routes (POST /sales, PUT /sales/:id/status) and the
    inventory routes (PUT /inventory/product/:id, POST .../add,
    POST .../remove), over the SQLite schema of the database module.

    Modelling conventions.
    - Numbers are exact integers.  Quantities count thousandths (the
      DECIMAL(10,3) scale of the schema), so the validator bound
      [min: 0.001] reads [1 <= quantity]; money amounts count the smallest
      unit of their column.  Binary floating-point rounding of JavaScript
      and SQLite is outside the model.
    - A table is the list of its rows in insertion order.  Timestamps and
      the free-text [notes] column are left out.
    - Every request opens its own connection ([getDB]); a connection is
      the current database plus the snapshot taken by BEGIN.  What other
      connections can see is [persisted].
    - A statement may fail (disk, lock, constraint): the fault plan
      [F : Stmt -> bool] says which ones do.
    - Callbacks run when their statement completes, and statements of one
      connection complete in the order in which they were issued: the
      handlers with a [forEach] are run by an event loop over a queue of
      pending statements, the single-chain handlers are written as the
      nesting of callbacks they are.
    - A request is answered once: the first [res.json] is the response,
      a later one cannot replace it. *)

From Stdlib Require Import ZArith List String Bool Lia.
Import ListNotations.
Open Scope Z_scope.

(** ** Schema *)

Inductive SaleStatus := pendente | concluida | cancelada.
Inductive MovementType := entrada | saida | ajuste.
Inductive PaymentMethod :=
  dinheiro | cartao_debito | cartao_credito | pix | boleto.

Definition SaleStatus_eqb (a b : SaleStatus) : bool :=
  match a, b with
  | pendente, pendente | concluida, concluida | cancelada, cancelada => true
  | _, _ => false
  end.

Record Product := mkProduct {
  p_id : Z;
  p_name : string;
  p_price : Z;
  p_active : bool
}.

Record InventoryRow := mkInventory {
  i_product_id : Z;
  i_quantity : Z;
  i_min_stock : Z;
  i_max_stock : option Z;
  i_location : string
}.

Record Sale := mkSale {
  s_id : Z;
  s_customer_id : option Z;
  s_user_id : Z;
  s_total_amount : Z;
  s_discount : Z;
  s_tax : Z;
  s_payment_method : PaymentMethod;
  s_status : SaleStatus
}.

Record SaleItemRow := mkSaleItemRow {
  si_sale_id : Z;
  si_product_id : Z;
  si_quantity : Z;
  si_unit_price : Z;
  si_total_price : Z
}.

Record Movement := mkMovement {
  m_product_id : Z;
  m_movement_type : MovementType;
  m_quantity : Z;
  m_reason : string;
  m_user_id : Z;
  m_reference_id : option Z;
  m_reference_type : string
}.

(** [sales_seq] is the AUTOINCREMENT counter of the sales table: the
    largest id ever handed out. *)
Record DB := mkDB {
  products : list Product;
  inventory : list InventoryRow;
  sales : list Sale;
  sale_items : list SaleItemRow;
  inventory_movements : list Movement;
  sales_seq : Z
}.

(** status TEXT DEFAULT 'concluida' *)
Definition sales_status_default : SaleStatus := concluida.

(** ** Connections and statements *)

Record Conn := mkConn {
  cur : DB;
  txn : option DB
}.

Definition connect (db : DB) : Conn := mkConn db None.

(** The database as the other connections see it: an open transaction
    has published nothing. *)
Definition persisted (c : Conn) : DB :=
  match txn c with
  | Some snapshot => snapshot
  | None => cur c
  end.

(** The object pushed on [saleItems] by the validation callback. *)
Record SaleItem := mkSaleItem {
  product_id : Z;
  quantity : Z;
  unit_price : Z;
  total_price : Z
}.

Inductive Stmt :=
| SBegin
| SCommit
| SRollback
| SProductQuery (pid : Z)
| SInsertSale (customer : option Z) (userId finalTotal discount tax : Z)
              (pm : PaymentMethod)
| SInsertSaleItem (saleId : Z) (it : SaleItem)
| SInventorySub (q pid : Z)
| SInventoryAdd (q pid : Z)
| SInsertMovement (m : Movement)
| SSelectSale (saleId : Z)
| SSelectSaleItems (saleId : Z)
| SUpdateSaleStatus (st : SaleStatus) (saleId : Z)
| SSelectActiveProduct (pid : Z)
| SSelectInventory (pid : Z)
| SInsertInventory (row : InventoryRow)
| SUpdateInventory (q min_stock : Z) (max_stock : option Z) (loc : string)
                   (pid : Z).

Definition Faults := Stmt -> bool.
Definition no_faults : Faults := fun _ => false.

Definition set_inventory (d : DB) (inv : list InventoryRow) : DB :=
  mkDB (products d) inv (sales d) (sale_items d) (inventory_movements d)
       (sales_seq d).

Definition set_sales (d : DB) (l : list Sale) : DB :=
  mkDB (products d) (inventory d) l (sale_items d) (inventory_movements d)
       (sales_seq d).

Definition add_quantity (delta : Z) (r : InventoryRow) : InventoryRow :=
  mkInventory (i_product_id r) (i_quantity r + delta) (i_min_stock r)
              (i_max_stock r) (i_location r).

(** UPDATE inventory SET quantity = quantity + delta WHERE product_id = pid *)
Definition adjust_inventory (delta pid : Z) (inv : list InventoryRow)
  : list InventoryRow :=
  map (fun r => if i_product_id r =? pid then add_quantity delta r else r) inv.

Definition count_rows (pid : Z) (inv : list InventoryRow) : nat :=
  List.length (filter (fun r => i_product_id r =? pid) inv).

Definition set_status (st : SaleStatus) (s : Sale) : Sale :=
  mkSale (s_id s) (s_customer_id s) (s_user_id s) (s_total_amount s)
         (s_discount s) (s_tax s) (s_payment_method s) st.

Record RunInfo := mkRunInfo {
  lastID : Z;
  changes : nat
}.

(** Effect of a data statement on the database; queries change nothing. *)
Definition apply_stmt (s : Stmt) (d : DB) : DB * RunInfo :=
  match s with
  | SInsertSale customer userId finalTotal discount tax pm =>
      let id := sales_seq d + 1 in
      (mkDB (products d) (inventory d)
            (sales d ++ [mkSale id customer userId finalTotal discount tax pm
                                sales_status_default])
            (sale_items d) (inventory_movements d) id,
       mkRunInfo id 1)
  | SInsertSaleItem saleId it =>
      (mkDB (products d) (inventory d) (sales d)
            (sale_items d ++ [mkSaleItemRow saleId (product_id it)
                                (quantity it) (unit_price it) (total_price it)])
            (inventory_movements d) (sales_seq d),
       mkRunInfo 0 1)
  | SInventorySub q pid =>
      (set_inventory d (adjust_inventory (- q) pid (inventory d)),
       mkRunInfo 0 (count_rows pid (inventory d)))
  | SInventoryAdd q pid =>
      (set_inventory d (adjust_inventory q pid (inventory d)),
       mkRunInfo 0 (count_rows pid (inventory d)))
  | SInsertMovement m =>
      (mkDB (products d) (inventory d) (sales d) (sale_items d)
            (inventory_movements d ++ [m]) (sales_seq d),
       mkRunInfo 0 1)
  | SUpdateSaleStatus st saleId =>
      (set_sales d (map (fun s => if s_id s =? saleId then set_status st s
                                  else s) (sales d)),
       mkRunInfo 0 (List.length (filter (fun s => s_id s =? saleId) (sales d))))
  | SInsertInventory row =>
      (set_inventory d (inventory d ++ [row]), mkRunInfo 0 1)
  | SUpdateInventory q mn mx loc pid =>
      (set_inventory d
         (map (fun r => if i_product_id r =? pid
                        then mkInventory (i_product_id r) q mn mx loc else r)
              (inventory d)),
       mkRunInfo 0 (count_rows pid (inventory d)))
  | _ => (d, mkRunInfo 0 0)
  end.

(** [db.run]: [None] is the [err] argument of the callback. *)
Definition db_run (F : Faults) (s : Stmt) (c : Conn) : Conn * option RunInfo :=
  if F s then (c, None)
  else
    match s with
    | SBegin =>
        match txn c with
        | None => (mkConn (cur c) (Some (cur c)), Some (mkRunInfo 0 0))
        | Some _ => (c, None)
        end
    | SCommit =>
        match txn c with
        | Some _ => (mkConn (cur c) None, Some (mkRunInfo 0 0))
        | None => (c, None)
        end
    | SRollback =>
        match txn c with
        | Some snapshot => (mkConn snapshot None, Some (mkRunInfo 0 0))
        | None => (c, None)
        end
    | _ =>
        let '(d, info) := apply_stmt s (cur c) in
        (mkConn d (txn c), Some info)
    end.

(** A [db.run] whose outcome nobody looks at. *)
Definition db_exec (F : Faults) (s : Stmt) (c : Conn) : Conn :=
  fst (db_run F s c).

(** ** Queries *)

Record ProductStockRow := mkProductStock {
  ps_id : Z;
  ps_name : string;
  ps_price : Z;
  ps_active : bool;
  ps_stock_quantity : option Z
}.

Definition find_inventory (pid : Z) (d : DB) : option InventoryRow :=
  find (fun r => i_product_id r =? pid) (inventory d).

(** SELECT id FROM products WHERE id = ? AND active = 1 *)
Definition find_active_product (pid : Z) (d : DB) : option Product :=
  find (fun p => (p_id p =? pid) && p_active p) (products d).

(** SELECT ... FROM products p LEFT JOIN inventory i ON p.id = i.product_id
    WHERE p.id = ? AND p.active = 1 *)
Definition productQuery (pid : Z) (d : DB) : option ProductStockRow :=
  match find_active_product pid d with
  | None => None
  | Some p =>
      Some (mkProductStock (p_id p) (p_name p) (p_price p) (p_active p)
              (option_map i_quantity (find_inventory pid d)))
  end.

Definition find_sale (saleId : Z) (d : DB) : option Sale :=
  find (fun s => s_id s =? saleId) (sales d).

Definition select_sale_items (saleId : Z) (d : DB) : list SaleItemRow :=
  filter (fun r => si_sale_id r =? saleId) (sale_items d).

(** [db.get] and [db.all]: [None] is the [err] argument of the callback. *)
Definition db_query {A} (F : Faults) (s : Stmt) (q : DB -> A) (c : Conn)
  : option A :=
  if F s then None else Some (q (cur c)).

(** ** Responses *)

Inductive Body :=
| ValidationErrors
| ErroValidarProduto
| ProdutoNaoEncontradoOuInativo (pid : Z)
| EstoqueInsuficientePara (name : string) (disponivel : option Z)
| ErroCriarVenda
| ErroInserirItem
| ErroAtualizarEstoque
| ErroConfirmarVenda
| VendaCriada (id total_amount : Z) (items_count : nat)
| ErroInterno
| VendaNaoEncontrada
| ErroRestaurarEstoque
| ErroAtualizarVenda
| ErroConfirmarAlteracao
| StatusAtualizado
| ProdutoNaoEncontrado
| ProdutoNaoEncontradoNoEstoque
| ErroCriarEntradaEstoque
| EstoqueCriado
| EstoqueAtualizado
| ErroAdicionarEstoque
| ErroRegistrarMovimentacao
| ErroConfirmarOperacao
| EstoqueAdicionado
| EstoqueInsuficiente (disponivel : Z)
| ErroRemoverEstoque
| EstoqueRemovido.

Record Response := mkResponse {
  status : Z;
  body : Body
}.

(** [res.status(..).json(..)]: the first response is the one the client
    gets; headers cannot be sent twice. *)
Definition first_response (sent : option Response) (r : Response)
  : option Response :=
  match sent with
  | None => Some r
  | Some _ => sent
  end.

(** ** The event loop

    [step t e] runs the statement of task [t] and then its callback,
    which may issue further tasks.  [round] drains the tasks that are
    pending, in order; the tasks issued meanwhile wait behind them. *)

Section EventLoop.
Variables T E : Type.
Variable step : T -> E -> E * list T.

Fixpoint round (q : list T) (e : E) : E * list T :=
  match q with
  | [] => (e, [])
  | t :: q' =>
      let '(e1, issued1) := step t e in
      let '(e2, issued2) := round q' e1 in
      (e2, issued1 ++ issued2)
  end.

Fixpoint loop (n : nat) (q : list T) (e : E) : E * list T :=
  match n with
  | O => (e, q)
  | S n' =>
      match q with
      | [] => (e, [])
      | _ => let '(e', q') := round q e in loop n' q' e'
      end
  end.
End EventLoop.

Arguments round {T E} step q e.
Arguments loop {T E} step n q e.

(** ** POST /sales

    [router.post('/')] of the sales routes: BEGIN, one product query per
    line, then [createSale]: the header insert and, per line, the chain
    line-item insert, inventory update, movement insert; COMMIT after the
    last movement callback. *)

Record Item := mkItem {
  item_product_id : Z;
  item_quantity : Z
}.

Record SaleRequest := mkSaleRequest {
  customer_id : option Z;
  items : list Item;
  discount : Z;
  tax : Z;
  payment_method : PaymentMethod
}.

(** The express-validator chain of the route; [payment_method] is in its
    enumeration by typing. *)
Definition valid_sale_request (r : SaleRequest) : bool :=
  (1 <=? List.length (items r))%nat
  && forallb (fun it => (1 <=? item_product_id it) && (1 <=? item_quantity it))
             (items r).

(** JavaScript's [a < b] for a column that may be NULL: null counts as 0. *)
Definition js_lt (a : option Z) (b : Z) : bool :=
  match a with
  | Some x => x <? b
  | None => 0 <? b
  end.

(** The variables the callbacks of one request close over. *)
Record SaleEnv := mkSaleEnv {
  conn : Conn;
  totalAmount : Z;
  processedItems : nat;
  saleItems : list SaleItem;
  insertedItems : nat;
  res : option Response
}.

Definition with_conn (c : Conn) (e : SaleEnv) : SaleEnv :=
  mkSaleEnv c (totalAmount e) (processedItems e) (saleItems e)
            (insertedItems e) (res e).

Definition send (r : Response) (e : SaleEnv) : SaleEnv :=
  mkSaleEnv (conn e) (totalAmount e) (processedItems e) (saleItems e)
            (insertedItems e) (first_response (res e) r).

Inductive SaleTask :=
| TBegin
| TProductQuery (item : Item)
| TInsertSale (finalTotal : Z)
| TInsertItem (saleId finalTotal : Z) (saleItem : SaleItem)
| TUpdateInventory (saleId finalTotal : Z) (saleItem : SaleItem)
| TInsertMovement (saleId finalTotal : Z) (saleItem : SaleItem)
| TCommit (saleId finalTotal : Z)
| TRollback.

Definition sale_movement (userId saleId : Z) (saleItem : SaleItem) : Movement :=
  mkMovement (product_id saleItem) saida (quantity saleItem) "Venda" userId
             (Some saleId) "sale".

(** What the validation callback decides for one line, given the row the
    product query returned. *)
Definition check_item (item : Item) (row : option (option ProductStockRow))
  : Response + SaleItem :=
  match row with
  | None => inl (mkResponse 500 ErroValidarProduto)
  | Some None =>
      inl (mkResponse 400 (ProdutoNaoEncontradoOuInativo (item_product_id item)))
  | Some (Some product) =>
      if js_lt (ps_stock_quantity product) (item_quantity item)
      then inl (mkResponse 400 (EstoqueInsuficientePara (ps_name product)
                                  (ps_stock_quantity product)))
      else
        let itemTotal := item_quantity item * ps_price product in
        inr (mkSaleItem (item_product_id item) (item_quantity item)
                        (ps_price product) itemTotal)
  end.

Section CreateSale.
Variable F : Faults.
Variable userId : Z.
Variable req : SaleRequest.

Definition createSale (e : SaleEnv) : list SaleTask :=
  let finalTotal := totalAmount e - discount req + tax req in
  [TInsertSale finalTotal].

Definition sale_step (t : SaleTask) (e : SaleEnv) : SaleEnv * list SaleTask :=
  match t with
  | TBegin => (with_conn (db_exec F SBegin (conn e)) e, [])
  | TRollback => (with_conn (db_exec F SRollback (conn e)) e, [])
  | TProductQuery item =>
      let pid := item_product_id item in
      match check_item item
              (db_query F (SProductQuery pid) (productQuery pid) (conn e)) with
      | inl r => (send r e, [TRollback])
      | inr saleItem =>
          let e1 := mkSaleEnv (conn e) (totalAmount e + total_price saleItem)
                              (S (processedItems e))
                              (saleItems e ++ [saleItem])
                              (insertedItems e) (res e) in
          if Nat.eqb (processedItems e1) (List.length (items req))
          then (e1, createSale e1)
          else (e1, [])
      end
  | TInsertSale finalTotal =>
      match db_run F (SInsertSale (customer_id req) userId finalTotal
                        (discount req) (tax req) (payment_method req))
                   (conn e) with
      | (c, None) =>
          (send (mkResponse 500 ErroCriarVenda) (with_conn c e), [TRollback])
      | (c, Some info) =>
          (with_conn c e,
           map (TInsertItem (lastID info) finalTotal) (saleItems e))
      end
  | TInsertItem saleId finalTotal saleItem =>
      match db_run F (SInsertSaleItem saleId saleItem) (conn e) with
      | (c, None) =>
          (send (mkResponse 500 ErroInserirItem) (with_conn c e), [TRollback])
      | (c, Some _) =>
          (with_conn c e, [TUpdateInventory saleId finalTotal saleItem])
      end
  | TUpdateInventory saleId finalTotal saleItem =>
      match db_run F (SInventorySub (quantity saleItem) (product_id saleItem))
                   (conn e) with
      | (c, None) =>
          (send (mkResponse 500 ErroAtualizarEstoque) (with_conn c e),
           [TRollback])
      | (c, Some _) =>
          (with_conn c e, [TInsertMovement saleId finalTotal saleItem])
      end
  | TInsertMovement saleId finalTotal saleItem =>
      (* an error here is logged, nothing else *)
      let c := db_exec F (SInsertMovement (sale_movement userId saleId saleItem))
                       (conn e) in
      let e1 := mkSaleEnv c (totalAmount e) (processedItems e) (saleItems e)
                          (S (insertedItems e)) (res e) in
      if Nat.eqb (insertedItems e1) (List.length (saleItems e1))
      then (e1, [TCommit saleId finalTotal])
      else (e1, [])
  | TCommit saleId finalTotal =>
      match db_run F SCommit (conn e) with
      | (c, None) => (send (mkResponse 500 ErroConfirmarVenda) (with_conn c e), [])
      | (c, Some _) =>
          (send (mkResponse 201 (VendaCriada saleId finalTotal
                                   (List.length (saleItems e))))
                (with_conn c e), [])
      end
  end.

Definition sale_env0 (db : DB) : SaleEnv :=
  mkSaleEnv (connect db) 0 0 [] 0 None.

(** The handler, run until the connection is idle.  The second component
    is what would still be pending; [create_sale_idle] shows it empty. *)
Definition create_sale_run (db : DB) : SaleEnv * list SaleTask :=
  if valid_sale_request req
  then loop sale_step 6 (TBegin :: map TProductQuery (items req))
            (sale_env0 db)
  else (send (mkResponse 400 ValidationErrors) (sale_env0 db), []).

Definition create_sale (db : DB) : DB * option Response :=
  let e := fst (create_sale_run db) in
  (persisted (conn e), res e).
End CreateSale.

(** ** PUT /sales/:id/status

    [router.put('/:id/status')] of the sales routes: when a 'concluida'
    sale is set to 'cancelada', the items of the sale are read and, per
    item, the inventory is restored and a movement inserted, then
    [updateSaleStatus] and COMMIT; any other request is the simple status
    update. *)

Record StatusEnv := mkStatusEnv {
  st_conn : Conn;
  st_items : list SaleItemRow;
  updatedItems : nat;
  st_res : option Response
}.

Definition st_with_conn (c : Conn) (e : StatusEnv) : StatusEnv :=
  mkStatusEnv c (st_items e) (updatedItems e) (st_res e).

Definition st_send (r : Response) (e : StatusEnv) : StatusEnv :=
  mkStatusEnv (st_conn e) (st_items e) (updatedItems e)
              (first_response (st_res e) r).

Inductive StatusTask :=
| UBegin
| USelectItems
| URestoreInventory (item : SaleItemRow)
| UInsertMovement (item : SaleItemRow)
| UUpdateSaleStatus
| UCommit
| URollback.

Definition cancellation_movement (userId saleId : Z) (item : SaleItemRow)
  : Movement :=
  mkMovement (si_product_id item) entrada (si_quantity item)
             "Cancelamento de venda" userId (Some saleId) "sale_cancellation".

Section UpdateSaleStatus.
Variable F : Faults.
Variable userId : Z.
Variable saleId : Z.
Variable new_status : SaleStatus.

Definition status_step (t : StatusTask) (e : StatusEnv)
  : StatusEnv * list StatusTask :=
  match t with
  | UBegin => (st_with_conn (db_exec F SBegin (st_conn e)) e, [])
  | URollback => (st_with_conn (db_exec F SRollback (st_conn e)) e, [])
  | USelectItems =>
      match db_query F (SSelectSaleItems saleId) (select_sale_items saleId)
                     (st_conn e) with
      | None => (st_send (mkResponse 500 ErroInterno) e, [URollback])
      | Some its =>
          (mkStatusEnv (st_conn e) its 0 (st_res e),
           map URestoreInventory its)
      end
  | URestoreInventory item =>
      match db_run F (SInventoryAdd (si_quantity item) (si_product_id item))
                   (st_conn e) with
      | (c, None) =>
          (st_send (mkResponse 500 ErroRestaurarEstoque) (st_with_conn c e),
           [URollback])
      | (c, Some _) => (st_with_conn c e, [UInsertMovement item])
      end
  | UInsertMovement item =>
      (* an error here is logged, nothing else *)
      let c := db_exec F (SInsertMovement
                            (cancellation_movement userId saleId item))
                       (st_conn e) in
      let e1 := mkStatusEnv c (st_items e) (S (updatedItems e)) (st_res e) in
      if Nat.eqb (updatedItems e1) (List.length (st_items e1))
      then (e1, [UUpdateSaleStatus])
      else (e1, [])
  | UUpdateSaleStatus =>
      match db_run F (SUpdateSaleStatus new_status saleId) (st_conn e) with
      | (c, None) =>
          (st_send (mkResponse 500 ErroAtualizarVenda) (st_with_conn c e),
           [URollback])
      | (c, Some _) => (st_with_conn c e, [UCommit])
      end
  | UCommit =>
      match db_run F SCommit (st_conn e) with
      | (c, None) =>
          (st_send (mkResponse 500 ErroConfirmarAlteracao) (st_with_conn c e),
           [])
      | (c, Some _) =>
          (st_send (mkResponse 200 StatusAtualizado) (st_with_conn c e), [])
      end
  end.

Definition status_env0 (db : DB) : StatusEnv :=
  mkStatusEnv (connect db) [] 0 None.

Definition update_sale_status_run (db : DB) : StatusEnv * list StatusTask :=
  let e := status_env0 db in
  match db_query F (SSelectSale saleId) (find_sale saleId) (st_conn e) with
  | None => (st_send (mkResponse 500 ErroInterno) e, [])
  | Some None => (st_send (mkResponse 404 VendaNaoEncontrada) e, [])
  | Some (Some sale) =>
      if SaleStatus_eqb (s_status sale) concluida
         && SaleStatus_eqb new_status cancelada
      then loop status_step 5 [UBegin; USelectItems] e
      else
        (* simple status update *)
        match db_run F (SUpdateSaleStatus new_status saleId) (st_conn e) with
        | (c, None) =>
            (st_send (mkResponse 500 ErroAtualizarVenda) (st_with_conn c e),
             [])
        | (c, Some _) =>
            (st_send (mkResponse 200 StatusAtualizado) (st_with_conn c e), [])
        end
  end.

Definition update_sale_status (db : DB) : DB * option Response :=
  let e := fst (update_sale_status_run db) in
  (persisted (st_conn e), st_res e).
End UpdateSaleStatus.

(** ** Inventory routes

    Each of these handlers is a single chain of callbacks, written here
    as the nesting it is. *)

Definition adjustment_movement (pid : Z) (ty : MovementType) (q : Z)
           (reason : string) (userId : Z) : Movement :=
  mkMovement pid ty q reason userId None "adjustment".

Definition nonempty (s : string) : bool :=
  match s with
  | EmptyString => false
  | _ => true
  end.

Record InventoryUpdate := mkInventoryUpdate {
  u_quantity : option Z;
  u_min_stock : option Z;
  u_max_stock : option Z;
  u_location : option string
}.

(** [optional().isFloat({ min: 0 })] *)
Definition valid_optional (x : option Z) : bool :=
  match x with
  | Some v => 0 <=? v
  | None => true
  end.

(** [x || 0], [x || null] and [x || 'default']: undefined, 0 and the empty
    string are falsy. *)
Definition js_or_zero (x : option Z) : Z :=
  match x with
  | Some v => v
  | None => 0
  end.

Definition js_or_null (x : option Z) : option Z :=
  match x with
  | Some 0 => None
  | _ => x
  end.

Definition js_or_default (x : option string) (d : string) : string :=
  match x with
  | Some s => if nonempty s then s else d
  | None => d
  end.

(** [x !== undefined ? x : y] *)
Definition defined_or {A} (x : option A) (y : A) : A :=
  match x with
  | Some v => v
  | None => y
  end.

Section Inventory.
Variable F : Faults.
Variable userId : Z.
Variable productId : Z.

(** POST /inventory/product/:id/add *)
Definition add_stock (qty : Z) (reason : string) (db : DB)
  : DB * option Response :=
  if negb ((1 <=? qty) && nonempty reason)
  then (db, Some (mkResponse 400 ValidationErrors))
  else
    let c := db_exec F SBegin (connect db) in
    match db_run F (SInventoryAdd qty productId) c with
    | (c, None) =>
        (persisted (db_exec F SRollback c),
         Some (mkResponse 500 ErroAdicionarEstoque))
    | (c, Some info) =>
        if Nat.eqb (changes info) 0
        then (persisted (db_exec F SRollback c),
              Some (mkResponse 404 ProdutoNaoEncontradoNoEstoque))
        else
          match db_run F (SInsertMovement
                            (adjustment_movement productId entrada qty reason
                                                 userId)) c with
          | (c, None) =>
              (persisted (db_exec F SRollback c),
               Some (mkResponse 500 ErroRegistrarMovimentacao))
          | (c, Some _) =>
              match db_run F SCommit c with
              | (c, None) =>
                  (persisted c, Some (mkResponse 500 ErroConfirmarOperacao))
              | (c, Some _) =>
                  (persisted c, Some (mkResponse 200 EstoqueAdicionado))
              end
          end
    end.

(** POST /inventory/product/:id/remove *)
Definition remove_stock (qty : Z) (reason : string) (db : DB)
  : DB * option Response :=
  if negb ((1 <=? qty) && nonempty reason)
  then (db, Some (mkResponse 400 ValidationErrors))
  else
    match db_query F (SSelectInventory productId) (find_inventory productId)
                   (connect db) with
    | None => (db, Some (mkResponse 500 ErroInterno))
    | Some None => (db, Some (mkResponse 404 ProdutoNaoEncontradoNoEstoque))
    | Some (Some inv) =>
        if i_quantity inv <? qty
        then (db, Some (mkResponse 400 (EstoqueInsuficiente (i_quantity inv))))
        else
          let c := db_exec F SBegin (connect db) in
          match db_run F (SInventorySub qty productId) c with
          | (c, None) =>
              (persisted (db_exec F SRollback c),
               Some (mkResponse 500 ErroRemoverEstoque))
          | (c, Some _) =>
              match db_run F (SInsertMovement
                                (adjustment_movement productId saida qty
                                                     reason userId)) c with
              | (c, None) =>
                  (persisted (db_exec F SRollback c),
                   Some (mkResponse 500 ErroRegistrarMovimentacao))
              | (c, Some _) =>
                  match db_run F SCommit c with
                  | (c, None) =>
                      (persisted c,
                       Some (mkResponse 500 ErroConfirmarOperacao))
                  | (c, Some _) =>
                      (persisted c, Some (mkResponse 200 EstoqueRemovido))
                  end
              end
          end
    end.

(** PUT /inventory/product/:id.  A field of the body that is absent is
    [None] (undefined). *)
Definition update_inventory (u : InventoryUpdate) (db : DB)
  : DB * option Response :=
  if negb (valid_optional (u_quantity u) && valid_optional (u_min_stock u)
           && valid_optional (u_max_stock u))
  then (db, Some (mkResponse 400 ValidationErrors))
  else
    let c := connect db in
    match db_query F (SSelectActiveProduct productId)
                   (find_active_product productId) c with
    | None => (db, Some (mkResponse 500 ErroInterno))
    | Some None => (db, Some (mkResponse 404 ProdutoNaoEncontrado))
    | Some (Some _) =>
        match db_query F (SSelectInventory productId)
                       (find_inventory productId) c with
        | None => (db, Some (mkResponse 500 ErroInterno))
        | Some None =>
            (* create the inventory entry *)
            match db_run F (SInsertInventory
                              (mkInventory productId
                                 (js_or_zero (u_quantity u))
                                 (js_or_zero (u_min_stock u))
                                 (js_or_null (u_max_stock u))
                                 (js_or_default (u_location u)
                                                "Estoque Principal"))) c with
            | (c, None) =>
                (persisted c, Some (mkResponse 500 ErroCriarEntradaEstoque))
            | (c, Some _) => (persisted c, Some (mkResponse 200 EstoqueCriado))
            end
        | Some (Some currentInventory) =>
            let newQuantity :=
              defined_or (u_quantity u) (i_quantity currentInventory) in
            let newMinStock :=
              defined_or (u_min_stock u) (i_min_stock currentInventory) in
            let newMaxStock :=
              match u_max_stock u with
              | Some m => Some m
              | None => i_max_stock currentInventory
              end in
            let newLocation :=
              defined_or (u_location u) (i_location currentInventory) in
            match db_run F (SUpdateInventory newQuantity newMinStock
                              newMaxStock newLocation productId) c with
            | (c, None) =>
                (persisted c, Some (mkResponse 500 ErroAtualizarEstoque))
            | (c, Some _) =>
                let c :=
                  match u_quantity u with
                  | Some q =>
                      if negb (q =? i_quantity currentInventory)
                      then
                        let movementType :=
                          if i_quantity currentInventory <? q
                          then entrada else saida in
                        let movementQuantity :=
                          Z.abs (q - i_quantity currentInventory) in
                        (* an error here does not fail the request *)
                        db_exec F (SInsertMovement
                                     (adjustment_movement productId
                                        movementType movementQuantity
                                        "Ajuste manual" userId)) c
                      else c
                  | None => c
                  end in
                (persisted c, Some (mkResponse 200 EstoqueAtualizado))
            end
        end
    end.
End Inventory.

(** ** Specification vocabulary *)

(** The outcome of the validation callback for one line against database
    [d]: the rejection it sends, or the sale item it pushes. *)
Definition line_check (F : Faults) (d : DB) (item : Item) : Response + SaleItem :=
  check_item item
    (db_query F (SProductQuery (item_product_id item))
              (productQuery (item_product_id item)) (connect d)).

Fixpoint validated_items (F : Faults) (d : DB) (its : list Item)
  : list SaleItem :=
  match its with
  | [] => []
  | it :: rest =>
      match line_check F d it with
      | inr saleItem => saleItem :: validated_items F d rest
      | inl _ => validated_items F d rest
      end
  end.

Fixpoint rejections (F : Faults) (d : DB) (its : list Item) : list Response :=
  match its with
  | [] => []
  | it :: rest =>
      match line_check F d it with
      | inr _ => rejections F d rest
      | inl r => r :: rejections F d rest
      end
  end.

Definition sum_total_price (l : list SaleItem) : Z :=
  fold_right (fun saleItem acc => total_price saleItem + acc) 0 l.


Definition is_data (s : Stmt) : bool :=
  match s with
  | SBegin | SCommit | SRollback => false
  | _ => true
  end.

Definition apply_all {A} (stmt : A -> Stmt) (l : list A) (d : DB) : DB :=
  fold_left (fun d x => fst (apply_stmt (stmt x) d)) l d.

Definition item_row (saleId : Z) (saleItem : SaleItem) : SaleItemRow :=
  mkSaleItemRow saleId (product_id saleItem) (quantity saleItem)
                (unit_price saleItem) (total_price saleItem).

Definition sub_stmt (saleItem : SaleItem) : Stmt :=
  SInventorySub (quantity saleItem) (product_id saleItem).


(** The response is settled and is not the 201 of a created sale. *)
Definition refused (r : option Response) : Prop :=
  exists x, r = Some x /\ status x <> 201.

(** No 201 has been sent (yet). *)
Definition not_created (r : option Response) : Prop :=
  forall x, r = Some x -> status x <> 201.

Definition nonneg_inventory (d : DB) : Prop :=
  Forall (fun r => 0 <= i_quantity r) (inventory d).

Definition stock_of (pid : Z) (d : DB) : option Z :=
  option_map i_quantity (find_inventory pid d).

(** The closure variables after the validation callbacks of the lines
    [its] have run from [e], every query having seen database [d]. *)
Definition validated_env (F : Faults) (d : DB) (e : SaleEnv) (its : list Item)
  : SaleEnv :=
  mkSaleEnv (conn e)
            (totalAmount e + sum_total_price (validated_items F d its))
            (processedItems e + List.length (validated_items F d its))
            (saleItems e ++ validated_items F d its)
            (insertedItems e)
            (fold_left first_response (rejections F d its) (res e)).

(** Whether the last of those callbacks called [createSale]. *)
Definition sale_created (F : Faults) (req : SaleRequest) (d : DB) (e : SaleEnv)
           (its : list Item) : bool :=
  (1 <=? List.length its)%nat
  && (List.length (rejections F d its) =? 0)%nat
  && (processedItems e + List.length its =? List.length (items req))%nat.

Definition insert_sale_stmt (userId : Z) (req : SaleRequest) (finalTotal : Z)
  : Stmt :=
  SInsertSale (customer_id req) userId finalTotal (discount req) (tax req)
              (payment_method req).

Definition movement_stmt (userId saleId : Z) (saleItem : SaleItem) : Stmt :=
  SInsertMovement (sale_movement userId saleId saleItem).

(** The total handed to [createSale] when every line of the request is
    accepted against [d]. *)
Definition final_total (F : Faults) (req : SaleRequest) (d : DB) : Z :=
  0 + sum_total_price (validated_items F d (items req))
  - discount req + tax req.

(** Every statement the success response depends on goes through; a
    failing movement insert is not among them. *)
Definition sale_ok (F : Faults) (userId : Z) (req : SaleRequest) (d : DB)
  : bool :=
  let saleItems := validated_items F d (items req) in
  let saleId := sales_seq d + 1 in
  valid_sale_request req
  && negb (F SBegin)
  && (List.length (rejections F d (items req)) =? 0)%nat
  && negb (F (insert_sale_stmt userId req (final_total F req d)))
  && forallb (fun x => negb (F (SInsertSaleItem saleId x))) saleItems
  && forallb (fun x => negb (F (sub_stmt x))) saleItems
  && negb (F SCommit).

(** The database a committed sale leaves behind. *)
Definition sold_db (F : Faults) (userId : Z) (req : SaleRequest) (d : DB)
  : DB :=
  let saleItems := validated_items F d (items req) in
  let saleId := sales_seq d + 1 in
  apply_all (movement_stmt userId saleId)
    (filter (fun x => negb (F (movement_stmt userId saleId x))) saleItems)
    (apply_all sub_stmt saleItems
       (apply_all (SInsertSaleItem saleId) saleItems
          (fst (apply_stmt (insert_sale_stmt userId req (final_total F req d))
                           d)))).

(** A connection on which nothing has been written since [db]. *)
Definition untouched (db : DB) (c : Conn) : Prop :=
  cur c = db /\ (txn c = None \/ txn c = Some db).




Definition sale_rank (t : SaleTask) : nat :=
  match t with
  | TBegin | TProductQuery _ => 1
  | TInsertSale _ => 2
  | TInsertItem _ _ _ => 3
  | TUpdateInventory _ _ _ => 4
  | TInsertMovement _ _ _ => 5
  | TCommit _ _ | TRollback => 6
  end.

Definition status_rank (t : StatusTask) : nat :=
  match t with
  | UBegin | USelectItems => 1
  | URestoreInventory _ => 2
  | UInsertMovement _ => 3
  | UUpdateSaleStatus => 4
  | UCommit | URollback => 5
  end.

(** Ids handed out by AUTOINCREMENT never exceed the counter, and line
    items only reference such ids. *)
Definition seq_wf (d : DB) : Prop :=
  Forall (fun s => s_id s <= sales_seq d) (sales d)
  /\ Forall (fun r => si_sale_id r <= sales_seq d) (sale_items d).

Definition decrement (inv : list InventoryRow) (x : SaleItem)
  : list InventoryRow :=
  adjust_inventory (- quantity x) (product_id x) inv.




(** Quantity of product [pid] on the lines [l]. *)
Definition sold_quantity (pid : Z) (l : list SaleItem) : Z :=
  fold_right (fun x acc => (if pid =? product_id x then quantity x else 0) + acc)
             0 l.


(** *** The scenario of the specification

    One product with stock 100; a sale of 30 units at the listed price. *)

Definition scenario_db : DB :=
  mkDB [mkProduct 1 "Tabua de Pinus 2,5x20x300cm" 2590 true;
        mkProduct 2 "Viga de Eucalipto 5x10x400cm" 8990 true;
        mkProduct 3 "Deck de Cumaru" 4590 false;
        mkProduct 4 "MDF Cru 15mm" 7850 true]
       [mkInventory 1 100 10 (Some 1000) "Estoque Principal";
        mkInventory 2 10 10 (Some 1000) "Estoque Principal";
        mkInventory 3 50 10 (Some 1000) "Estoque Principal"]
       [] [] [] 0.

Definition scenario_req (l : list Item) : SaleRequest :=
  mkSaleRequest None l 0 0 pix.

Definition scenario_sale : SaleRequest := scenario_req [mkItem 1 30].

Definition scenario_sold : DB :=
  fst (create_sale no_faults 9 scenario_sale scenario_db).

(** Only movement inserts fail. *)
Definition movement_faults : Faults :=
  fun s => match s with SInsertMovement _ => true | _ => false end.

(** Only the insert of the sale header fails. *)
Definition header_faults : Faults :=
  fun s => match s with SInsertSale _ _ _ _ _ _ => true | _ => false end.

Definition scenario_cancelled : DB :=
  fst (update_sale_status no_faults 9 1 cancelada scenario_sold).


(** The database after [qty] of product [pid] was removed by hand. *)
Definition removed_db (userId pid qty : Z) (reason : string) (d : DB) : DB :=
  mkDB (products d) (adjust_inventory (- qty) pid (inventory d)) (sales d)
       (sale_items d)
       (inventory_movements d
        ++ [adjustment_movement pid saida qty reason userId])
       (sales_seq d).

(** One inventory row per product. *)
Definition unique_inventory (d : DB) : Prop :=
  NoDup (map i_product_id (inventory d)).

(** Both the working copy and the snapshot of a connection keep the
    quantities non-negative. *)
Definition conn_nonneg (c : Conn) : Prop :=
  nonneg_inventory (cur c)
  /\ forall snapshot, txn c = Some snapshot -> nonneg_inventory snapshot.

(** *** Frames

    What a route can and cannot touch, whatever fails. *)


(** Two inventory rows that differ at most in their quantity. *)
Definition same_but_quantity (a b : InventoryRow) : Prop :=
  b = mkInventory (i_product_id a) (i_quantity b) (i_min_stock a)
                  (i_max_stock a) (i_location a).

(** [d] is [db] with rows appended to the sales, line-item and movement
    tables and with other quantities in its inventory rows. *)
Definition extends (db d : DB) : Prop :=
  products d = products db
  /\ (exists l, sales d = sales db ++ l)
  /\ (exists l, sale_items d = sale_items db ++ l)
  /\ (exists l, inventory_movements d = inventory_movements db ++ l)
  /\ Forall2 same_but_quantity (inventory db) (inventory d).

(** [d] is [db] up to the status of sale [saleId], the quantities of the
    inventory rows and movements appended to the log. *)
Definition status_frame (saleId : Z) (db d : DB) : Prop :=
  products d = products db
  /\ sale_items d = sale_items db
  /\ sales_seq d = sales_seq db
  /\ Forall2 (fun a b => b = set_status (s_status b) a
                         /\ (s_id a <> saleId -> b = a))
             (sales db) (sales d)
  /\ (exists l, inventory_movements d = inventory_movements db ++ l)
  /\ Forall2 same_but_quantity (inventory db) (inventory d).

(** A property of the database that holds of the working copy and of the
    snapshot of a connection. *)
Definition conn_keeps (P : DB -> Prop) (c : Conn) : Prop :=
  P (cur c) /\ forall snapshot, txn c = Some snapshot -> P snapshot.

(** The database after [qty] of product [pid] was added by hand. *)
Definition added_db (userId pid qty : Z) (reason : string) (d : DB) : DB :=
  mkDB (products d) (adjust_inventory qty pid (inventory d)) (sales d)
       (sale_items d)
       (inventory_movements d
        ++ [adjustment_movement pid entrada qty reason userId])
       (sales_seq d).





(** ** Pagination of the list routes

    GET /customers, /customers/:id/purchases, /sales, /products,
    /inventory and /inventory/movements share one scheme.  The rows are
    what the SELECT of the route returns without its LIMIT and OFFSET, in
    its ORDER BY order; the count query has the same WHERE clause, so
    its total is their number. *)








(** ** Customers routes

    The customers table and the routes that write it: POST /customers,
    PUT /customers/:id, DELETE /customers/:id, and GET /customers/:id.
    A field of the body that is absent is [None] and is stored as NULL;
    [isEmail] is the check of the validation library. *)

Inductive CustomerType := pessoa_fisica | pessoa_juridica.

Record Customer := mkCustomer {
  c_id : Z;
  c_name : string;
  c_email : option string;
  c_phone : option string;
  c_cpf_cnpj : option string;
  c_address : option string;
  c_city : option string;
  c_state : option string;
  c_zip_code : option string;
  c_customer_type : CustomerType;
  c_active : bool
}.

Record CustomersTable := mkCustomersTable {
  customers : list Customer;
  customers_seq : Z
}.

(** The body of a request.  [b_customer_type] is [None] when the field
    is absent or is not one of the two types; [b_active] is [Some false]
    for the boolean false and [None] for anything else but true. *)
Record CustomerBody := mkCustomerBody {
  b_name : option string;
  b_email : option string;
  b_phone : option string;
  b_cpf_cnpj : option string;
  b_address : option string;
  b_city : option string;
  b_state : option string;
  b_zip_code : option string;
  b_customer_type : option CustomerType;
  b_active : option bool
}.

Inductive CustomerStmt :=
| CSelectById (id : Z)
| CSelectCreated (id : Z)
| CSelectUpdated (id : Z)
| CSelectExisting (email cpf_cnpj : option string)
| CSelectExistingOther (email cpf_cnpj : option string) (id : Z)
| CInsert (b : CustomerBody)
| CUpdate (b : CustomerBody) (id : Z)
| CDeactivate (id : Z).

Definition CustomerFaults := CustomerStmt -> bool.
Definition no_customer_faults : CustomerFaults := fun _ => false.

Inductive CustomerBodyMsg :=
| CValidationErrors
| CErroInterno
| ClienteNaoEncontrado
| ClienteJaExiste
| OutroClienteJaExiste
| ErroCriarCliente
| ErroAtualizarCliente
| ClienteCriado (customer : option Customer)
| ClienteAtualizado (customer : option Customer)
| ClienteDesativado
| ClienteJson (customer : Customer).

Record CustomerResponse := mkCustomerResponse {
  cr_status : Z;
  cr_body : CustomerBodyMsg
}.

(** [column = ?] of SQL: never true when either side is NULL. *)
Definition sql_eq (column param : option string) : bool :=
  match column, param with
  | Some a, Some b => String.eqb a b
  | _, _ => false
  end.

Definition find_customer (id : Z) (t : CustomersTable) : option Customer :=
  find (fun c => c_id c =? id) (customers t).

(** SELECT id FROM customers WHERE email = ? OR cpf_cnpj = ? *)
Definition find_existing (email cpf : option string) (t : CustomersTable)
  : option Customer :=
  find (fun c => sql_eq (c_email c) email || sql_eq (c_cpf_cnpj c) cpf)
       (customers t).

(** SELECT id FROM customers
    WHERE (email = ? OR cpf_cnpj = ?) AND id != ? *)
Definition find_existing_other (email cpf : option string) (id : Z)
           (t : CustomersTable) : option Customer :=
  find (fun c => (sql_eq (c_email c) email || sql_eq (c_cpf_cnpj c) cpf)
                 && negb (c_id c =? id))
       (customers t).

(** [active !== false ? 1 : 0] *)
Definition active_flag (a : option bool) : bool :=
  match a with
  | Some false => false
  | _ => true
  end.

Definition customer_of_body (id : Z) (name : string) (ty : CustomerType)
           (active : bool) (b : CustomerBody) : Customer :=
  mkCustomer id name (b_email b) (b_phone b) (b_cpf_cnpj b) (b_address b)
             (b_city b) (b_state b) (b_zip_code b) ty active.

Definition deactivate (c : Customer) : Customer :=
  mkCustomer (c_id c) (c_name c) (c_email c) (c_phone c) (c_cpf_cnpj c)
             (c_address c) (c_city c) (c_state c) (c_zip_code c)
             (c_customer_type c) false.

Section Customers.
Variable isEmail : string -> bool.
Variable F : CustomerFaults.

(** The validation chain of POST and PUT: the name and type it found
    valid, or nothing. *)
Definition valid_customer_body (b : CustomerBody)
  : option (string * CustomerType) :=
  match b_name b, b_customer_type b with
  | Some name, Some ty =>
      if nonempty name
         && match b_email b with
            | Some e => isEmail e
            | None => true
            end
      then Some (name, ty)
      else None
  | _, _ => None
  end.

(** POST /customers *)
Definition create_customer (b : CustomerBody) (t : CustomersTable)
  : CustomersTable * CustomerResponse :=
  match valid_customer_body b with
  | None => (t, mkCustomerResponse 400 CValidationErrors)
  | Some (name, ty) =>
      if F (CSelectExisting (b_email b) (b_cpf_cnpj b))
      then (t, mkCustomerResponse 500 CErroInterno)
      else
        match find_existing (b_email b) (b_cpf_cnpj b) t with
        | Some _ => (t, mkCustomerResponse 400 ClienteJaExiste)
        | None =>
            if F (CInsert b)
            then (t, mkCustomerResponse 500 ErroCriarCliente)
            else
              let lastID := customers_seq t + 1 in
              let t1 := mkCustomersTable
                          (customers t
                           ++ [customer_of_body lastID name ty true b])
                          lastID in
              (* return the created customer *)
              if F (CSelectCreated lastID)
              then (t1, mkCustomerResponse 500 CErroInterno)
              else (t1, mkCustomerResponse 201
                          (ClienteCriado (find_customer lastID t1)))
        end
  end.

(** PUT /customers/:id *)
Definition update_customer (customerId : Z) (b : CustomerBody)
           (t : CustomersTable) : CustomersTable * CustomerResponse :=
  match valid_customer_body b with
  | None => (t, mkCustomerResponse 400 CValidationErrors)
  | Some (name, ty) =>
      if F (CSelectById customerId)
      then (t, mkCustomerResponse 500 CErroInterno)
      else
        match find_customer customerId t with
        | None => (t, mkCustomerResponse 404 ClienteNaoEncontrado)
        | Some _ =>
            if F (CSelectExistingOther (b_email b) (b_cpf_cnpj b) customerId)
            then (t, mkCustomerResponse 500 CErroInterno)
            else
              match find_existing_other (b_email b) (b_cpf_cnpj b) customerId
                                        t with
              | Some _ => (t, mkCustomerResponse 400 OutroClienteJaExiste)
              | None =>
                  if F (CUpdate b customerId)
                  then (t, mkCustomerResponse 500 ErroAtualizarCliente)
                  else
                    let t1 :=
                      mkCustomersTable
                        (map (fun c =>
                                if c_id c =? customerId
                                then customer_of_body (c_id c) name ty
                                       (active_flag (b_active b)) b
                                else c)
                             (customers t))
                        (customers_seq t) in
                    (* return the updated customer *)
                    if F (CSelectUpdated customerId)
                    then (t1, mkCustomerResponse 500 CErroInterno)
                    else (t1, mkCustomerResponse 200
                                (ClienteAtualizado
                                   (find_customer customerId t1)))
              end
        end
  end.

(** DELETE /customers/:id: a soft delete. *)
Definition delete_customer (customerId : Z) (t : CustomersTable)
  : CustomersTable * CustomerResponse :=
  if F (CDeactivate customerId)
  then (t, mkCustomerResponse 500 CErroInterno)
  else
    let changes := List.length (filter (fun c => c_id c =? customerId)
                                       (customers t)) in
    let t1 := mkCustomersTable
                (map (fun c => if c_id c =? customerId then deactivate c else c)
                     (customers t))
                (customers_seq t) in
    if Nat.eqb changes 0
    then (t1, mkCustomerResponse 404 ClienteNaoEncontrado)
    else (t1, mkCustomerResponse 200 ClienteDesativado).

(** GET /customers/:id *)
Definition get_customer (customerId : Z) (t : CustomersTable)
  : CustomerResponse :=
  if F (CSelectById customerId)
  then mkCustomerResponse 500 CErroInterno
  else
    match find_customer customerId t with
    | None => mkCustomerResponse 404 ClienteNaoEncontrado
    | Some c => mkCustomerResponse 200 (ClienteJson c)
    end.
End Customers.

(** Two customers share neither a stored email nor a stored CPF/CNPJ. *)
Definition no_clash (a b : Customer) : Prop :=
  sql_eq (c_email a) (c_email b) = false
  /\ sql_eq (c_cpf_cnpj a) (c_cpf_cnpj b) = false.

(** The customers table as the routes keep it: ids are unique and within
    the counter, and customers with different ids do not clash. *)
Definition customers_wf (t : CustomersTable) : Prop :=
  NoDup (map c_id (customers t))
  /\ Forall (fun c => c_id c <= customers_seq t) (customers t)
  /\ forall a b, In a (customers t) -> In b (customers t) ->
                 c_id a <> c_id b -> no_clash a b.

Definition scenario_customers : CustomersTable :=
  mkCustomersTable
    [mkCustomer 1 "Serraria Boa Vista"%string
                (Some "contato@boavista.com"%string) None
                (Some "12345678000199"%string) None None None None
                pessoa_juridica true;
     mkCustomer 2 "Joao Pereira"%string None (Some "5551999"%string) None
                None None None None pessoa_fisica false]
    2.

(** ** Middleware and DELETE /products/:id

    [authenticateToken] and [requireAdmin] of the auth middleware, and
    the soft delete of the products routes behind them.  [jwt_verify] is
    [jwt.verify] with the secret of the server: the payload of a token
    it accepts, or nothing. *)

Definition space : Ascii.ascii := Ascii.ascii_of_nat 32.

Record TokenUser := mkTokenUser {
  tu_userId : Z;
  tu_username : string;
  tu_role : string
}.

Inductive ProductMsg :=
| TokenRequerido
| TokenInvalido
| AcessoNegado
| ProdutoErroInterno
| ProdutoInexistente
| ProdutoDesativado.

Record ProductResponse := mkProductResponse {
  pr_status : Z;
  pr_body : ProductMsg
}.

(** [s.split(' ')] *)
Fixpoint split_space (s : string) : list string :=
  match s with
  | EmptyString => [EmptyString]
  | String c rest =>
      if Ascii.eqb c space
      then EmptyString :: split_space rest
      else match split_space rest with
           | [] => [String c EmptyString]
           | field :: fields => String c field :: fields
           end
  end.

(** [authHeader && authHeader.split(' ')[1]] *)
Definition header_token (authHeader : option string) : option string :=
  match authHeader with
  | None => None
  | Some h => if nonempty h then nth_error (split_space h) 1 else Some h
  end.

Definition deactivate_product (p : Product) : Product :=
  mkProduct (p_id p) (p_name p) (p_price p) false.

Section Middleware.
Variable jwt_verify : string -> option TokenUser.

(** The middleware answers, or calls [next] with [req.user] set. *)
Definition authenticateToken (authHeader : option string)
  : ProductResponse + TokenUser :=
  match header_token authHeader with
  | None => inl (mkProductResponse 401 TokenRequerido)
  | Some token =>
      if negb (nonempty token)
      then inl (mkProductResponse 401 TokenRequerido)
      else
        match jwt_verify token with
        | None => inl (mkProductResponse 403 TokenInvalido)
        | Some user => inr user
        end
  end.

(** [None] is the call of [next]. *)
Definition requireAdmin (user : TokenUser) : option ProductResponse :=
  if negb (String.eqb (tu_role user) "admin"%string)
  then Some (mkProductResponse 403 AcessoNegado)
  else None.

(** The handler of DELETE /products/:id; [fails] is the [err] of its one
    statement. *)
Definition delete_product (fails : bool) (productId : Z) (db : DB)
  : DB * ProductResponse :=
  if fails
  then (db, mkProductResponse 500 ProdutoErroInterno)
  else
    let changes := List.length (filter (fun p => p_id p =? productId)
                                       (products db)) in
    let db1 := mkDB (map (fun p => if p_id p =? productId
                                   then deactivate_product p else p)
                         (products db))
                    (inventory db) (sales db) (sale_items db)
                    (inventory_movements db) (sales_seq db) in
    if Nat.eqb changes 0
    then (db1, mkProductResponse 404 ProdutoInexistente)
    else (db1, mkProductResponse 200 ProdutoDesativado).

(** router.delete('/:id', authenticateToken, requireAdmin, handler) *)
Definition delete_product_route (authHeader : option string) (fails : bool)
           (productId : Z) (db : DB) : DB * ProductResponse :=
  match authenticateToken authHeader with
  | inl r => (db, r)
  | inr user =>
      match requireAdmin user with
      | Some r => (db, r)
      | None => delete_product fails productId db
      end
  end.
End Middleware.

Fixpoint has_space (s : string) : bool :=
  match s with
  | EmptyString => false
  | String c rest => Ascii.eqb c space || has_space rest
  end.

(** A verifier that knows two tokens. *)
Definition scenario_verify (token : string) : option TokenUser :=
  if String.eqb token "tok-admin"%string
  then Some (mkTokenUser 1 "admin"%string "admin"%string)
  else if String.eqb token "tok-seller"%string
       then Some (mkTokenUser 2 "maria"%string "vendedor"%string)
       else None.

(** ** GET /inventory/summary

    Four aggregate queries, run together; the answer is 500 when one of
    them fails, [None] here. *)

Inductive SummaryQuery :=
| totalProducts
| lowStockItems
| outOfStockItems
| totalValue.

Record InventorySummary := mkInventorySummary {
  total_products : Z;
  low_stock_items : Z;
  out_of_stock_items : Z;
  total_inventory_value : Z
}.

(** FROM inventory i JOIN products p ON i.product_id = p.id
    WHERE p.active = 1 *)
Definition active_stock (db : DB) : list (InventoryRow * Product) :=
  flat_map (fun i =>
              map (fun p => (i, p))
                  (filter (fun p => (i_product_id i =? p_id p) && p_active p)
                          (products db)))
           (inventory db).

Definition sql_count {A} (p : A -> bool) (l : list A) : Z :=
  Z.of_nat (List.length (filter p l)).

Definition inventory_summary (F : SummaryQuery -> bool) (db : DB)
  : option InventorySummary :=
  if F totalProducts || F lowStockItems || F outOfStockItems || F totalValue
  then None
  else
    Some (mkInventorySummary
            (sql_count p_active (products db))
            (sql_count (fun ip => i_quantity (fst ip) <=? i_min_stock (fst ip))
                        (active_stock db))
            (sql_count (fun ip => i_quantity (fst ip) =? 0) (active_stock db))
            (fold_right (fun ip acc => i_quantity (fst ip) * p_price (snd ip)
                                       + acc)
                        0 (active_stock db))).

(** ** Generic facts *)

Lemma first_response_some (x : Response) (r : Response) :
  first_response (Some x) r = Some x.
Proof. reflexivity. Qed.

Lemma refused_first (o : option Response) (r : Response) :
  refused o -> refused (first_response o r).
Proof. intros [x [-> Hx]]. exists x. split; [reflexivity | exact Hx]. Qed.

Lemma refused_after (o : option Response) (r : Response) :
  not_created o -> status r <> 201 -> refused (first_response o r).
Proof.
  intros Hn Hr. destruct o as [x|]; simpl.
  - exists x. split; [reflexivity | apply Hn; reflexivity].
  - exists r. split; [reflexivity | exact Hr].
Qed.

Lemma refused_not_created (o : option Response) : refused o -> not_created o.
Proof. intros [x [-> Hx]] y Hy. injection Hy as <-. exact Hx. Qed.

Lemma not_created_none : not_created None.
Proof. intros x Hx. discriminate Hx. Qed.

Section RoundFacts.
Variables T E : Type.
Variable step : T -> E -> E * list T.

Lemma round_app (q1 q2 : list T) (e : E) :
  round step (q1 ++ q2) e =
  let '(e1, i1) := round step q1 e in
  let '(e2, i2) := round step q2 e1 in
  (e2, i1 ++ i2).
Proof.
  revert e. induction q1 as [|t q1 IH]; intros e; simpl.
  - destruct (round step q2 e); reflexivity.
  - destruct (step t e) as [e1 i1]. rewrite IH.
    destruct (round step q1 e1) as [e2 i2].
    destruct (round step q2 e2) as [e3 i3].
    now rewrite app_assoc.
Qed.

(** An invariant of every step is an invariant of the loop. *)
Lemma round_invariant (P : E -> Prop) :
  (forall t e, P e -> P (fst (step t e))) ->
  forall q e, P e -> P (fst (round step q e)).
Proof.
  intros Hstep q. induction q as [|t q IH]; intros e He; simpl; auto.
  specialize (Hstep t e He). destruct (step t e) as [e1 i1]. simpl in Hstep.
  specialize (IH e1 Hstep). destruct (round step q e1). exact IH.
Qed.

Lemma loop_invariant (P : E -> Prop) :
  (forall t e, P e -> P (fst (step t e))) ->
  forall n q e, P e -> P (fst (loop step n q e)).
Proof.
  intros Hstep n. induction n as [|n IH]; intros q e He; simpl; auto.
  destruct q as [|t q]; auto.
  pose proof (round_invariant P Hstep (t :: q) e He) as Hr.
  destruct (round step (t :: q) e) as [e' q']. apply IH. exact Hr.
Qed.

(** Tasks are ranked; a step only issues tasks of higher rank, so a
    queue whose ranks are within [n] of the top is drained by [n]
    rounds. *)
Variable rank : T -> nat.
Variable top : nat.
Hypothesis rank_step :
  forall t e, Forall (fun t' => rank t < rank t' <= top)%nat (snd (step t e)).

Lemma round_rank (k : nat) (q : list T) (e : E) :
  Forall (fun t => k <= rank t)%nat q ->
  Forall (fun t => S k <= rank t <= top)%nat (snd (round step q e)).
Proof.
  revert e. induction q as [|t q IH]; intros e Hq; simpl.
  - constructor.
  - inversion Hq as [|? ? Ht Hq']; subst.
    pose proof (rank_step t e) as Hs.
    destruct (step t e) as [e1 i1]. simpl in Hs.
    specialize (IH e1 Hq'). destruct (round step q e1) as [e2 i2].
    simpl in *. apply Forall_app. split; [|exact IH].
    eapply Forall_impl; [|exact Hs]. simpl. intros; lia.
Qed.

Lemma loop_drains (n : nat) :
  forall k q e, (top < k + n)%nat ->
    Forall (fun t => k <= rank t <= top)%nat q ->
    snd (loop step n q e) = [].
Proof.
  induction n as [|n IH]; intros k q e Hk Hq; simpl.
  - destruct q as [|t q]; [reflexivity|].
    inversion Hq; subst. lia.
  - destruct q as [|t q]; [reflexivity|].
    assert (Hq' : Forall (fun t => k <= rank t)%nat (t :: q)).
    { eapply Forall_impl; [|exact Hq]. simpl. intros; lia. }
    pose proof (round_rank k (t :: q) e Hq') as Hr.
    destruct (round step (t :: q) e) as [e' q'].
    apply (IH (S k)); [lia | exact Hr].
Qed.
End RoundFacts.

Arguments round_app {T E} step q1 q2 e.
Arguments round_invariant {T E} step P _ q e _.
Arguments loop_invariant {T E} step P _ n q e _.
Arguments loop_drains {T E} step rank top _ n k q e _ _.

(** ** Sale creation, round by round *)

Lemma db_run_fail (F : Faults) (s : Stmt) (c : Conn) :
  F s = true -> db_run F s c = (c, None).
Proof. intros H. unfold db_run. now rewrite H. Qed.

Lemma db_run_data (F : Faults) (s : Stmt) (c : Conn) :
  F s = false -> is_data s = true ->
  db_run F s c = (mkConn (fst (apply_stmt s (cur c))) (txn c),
                  Some (snd (apply_stmt s (cur c)))).
Proof.
  intros H Hd. unfold db_run. rewrite H.
  destruct s; simpl in Hd; try discriminate; reflexivity.
Qed.

Lemma db_exec_data (F : Faults) (s : Stmt) (c : Conn) :
  is_data s = true ->
  db_exec F s c =
  if F s then c else mkConn (fst (apply_stmt s (cur c))) (txn c).
Proof.
  intros Hd. unfold db_exec. destruct (F s) eqn:H.
  - now rewrite db_run_fail.
  - now rewrite db_run_data.
Qed.

Lemma db_query_cur {A} (F : Faults) (s : Stmt) (q : DB -> A) (c : Conn) :
  db_query F s q c = db_query F s q (connect (cur c)).
Proof. reflexivity. Qed.

Lemma fold_first_response_some (l : list Response) (x : Response) :
  fold_left first_response l (Some x) = Some x.
Proof. induction l as [|r l IH]; simpl; auto. Qed.

Lemma fold_first_response_refused (l : list Response) (o : option Response) :
  refused o -> refused (fold_left first_response l o).
Proof. intros [x [-> Hx]]. rewrite fold_first_response_some. now exists x. Qed.

Lemma rejections_validated_length (F : Faults) (d : DB) (its : list Item) :
  (List.length (rejections F d its) + List.length (validated_items F d its)
   = List.length its)%nat.
Proof.
  induction its as [|a its IH]; simpl; auto.
  destruct (line_check F d a); simpl; lia.
Qed.

Section SaleRounds.
Variable F : Faults.
Variable userId : Z.
Variable req : SaleRequest.

Local Abbreviation step := (sale_step F userId req).

Lemma sale_created_rejected (d : DB) (e : SaleEnv) {a : Item}
      (its : list Item) {r : Response} :
  line_check F d a = inl r -> sale_created F req d e (a :: its) = false.
Proof.
  intros Hc. unfold sale_created. cbn [rejections]. rewrite Hc.
  cbn [List.length]. rewrite (proj2 (Nat.eqb_neq _ 0)) by lia.
  now rewrite andb_false_r.
Qed.

Lemma sale_created_short (d : DB) (e : SaleEnv) (its : list Item) :
  (processedItems e + List.length its < List.length (items req))%nat ->
  sale_created F req d e its = false.
Proof.
  intros Hlt. unfold sale_created.
  rewrite (proj2 (Nat.eqb_neq (_ + _) _)) by lia.
  now rewrite andb_false_r.
Qed.

Lemma validated_env_nil (d : DB) (e : SaleEnv) : validated_env F d e [] = e.
Proof.
  unfold validated_env. destruct e. cbn.
  rewrite Z.add_0_r, Nat.add_0_r, app_nil_r. reflexivity.
Qed.

Lemma validated_env_rejected (d : DB) (e : SaleEnv) {a : Item}
      (its : list Item) {r : Response} :
  line_check F d a = inl r ->
  validated_env F d e (a :: its) = validated_env F d (send r e) its.
Proof.
  intros Hc. unfold validated_env. cbn [validated_items rejections].
  rewrite Hc. reflexivity.
Qed.

Lemma validated_env_accepted (d : DB) (e : SaleEnv) {a : Item}
      (its : list Item) {saleItem : SaleItem} :
  line_check F d a = inr saleItem ->
  validated_env F d e (a :: its) =
  validated_env F d
    (mkSaleEnv (conn e) (totalAmount e + total_price saleItem)
               (S (processedItems e)) (saleItems e ++ [saleItem])
               (insertedItems e) (res e)) its.
Proof.
  intros Hc. unfold validated_env. cbn [validated_items rejections].
  rewrite Hc.
  cbn [conn totalAmount processedItems saleItems insertedItems res
       sum_total_price fold_right List.length].
  rewrite <- app_assoc, <- Z.add_assoc, Nat.add_succ_comm. reflexivity.
Qed.

Lemma validation_round (d : DB) (its : list Item) :
  forall e, cur (conn e) = d ->
    (processedItems e + List.length its <= List.length (items req))%nat ->
    round step (map TProductQuery its) e =
    (validated_env F d e its,
     if sale_created F req d e its
     then createSale req (validated_env F d e its)
     else map (fun _ => TRollback) (rejections F d its)).
Proof.
  induction its as [|a its IH]; intros e Hd Hle.
  - rewrite validated_env_nil. reflexivity.
  - cbn [map round]. unfold sale_step at 1.
    rewrite db_query_cur, Hd. fold (line_check F d a).
    cbn [List.length] in Hle.
    destruct (line_check F d a) as [r|saleItem] eqn:Hc.
    + rewrite (IH (send r e)); [| exact Hd | cbn; lia].
      rewrite (sale_created_rejected d e its Hc).
      rewrite sale_created_short by (cbn; lia).
      rewrite (validated_env_rejected d e its Hc).
      cbn [rejections]. rewrite Hc. reflexivity.
    + rewrite (validated_env_accepted d e its Hc).
      cbn [processedItems].
      set (e1 := mkSaleEnv _ _ _ _ _ _).
      destruct (Nat.eqb_spec (S (processedItems e))
                             (List.length (items req))) as [Hn|Hn].
      * destruct its as [|b its]; [|cbn in Hle; lia].
        rewrite validated_env_nil. cbn [map round app].
        unfold sale_created. cbn [rejections]. rewrite Hc.
        cbn [rejections List.length].
        rewrite (proj2 (Nat.eqb_eq (_ + 1) _)) by lia. reflexivity.
      * rewrite (IH e1); [| exact Hd | cbn; lia].
        cbn [app rejections]. rewrite Hc.
        assert (Hb : sale_created F req d e1 its
                     = sale_created F req d e (a :: its)).
        { unfold sale_created. cbn [rejections]. rewrite Hc.
          subst e1. cbn [processedItems List.length].
          destruct its as [|b its].
          - cbn [List.length rejections].
            rewrite (proj2 (Nat.eqb_neq (_ + 1) _)) by lia.
            now rewrite andb_false_r.
          - cbn [List.length Nat.leb]. f_equal. f_equal. lia. }
        rewrite Hb. reflexivity.
Qed.

Lemma step_refused (t : SaleTask) (e : SaleEnv) :
  refused (res e) -> refused (res (fst (step t e))).
Proof.
  intros H. destruct t; unfold sale_step;
    repeat match goal with
           | |- context [match ?x with _ => _ end] => destruct x
           end; cbn; auto using refused_first.
Qed.

Lemma loop_refused (n : nat) (q : list SaleTask) (e : SaleEnv) :
  refused (res e) -> refused (res (fst (loop step n q e))).
Proof.
  apply (loop_invariant step (fun e => refused (res e))). exact step_refused.
Qed.

Lemma round_refused (q : list SaleTask) (e : SaleEnv) :
  refused (res e) -> refused (res (fst (round step q e))).
Proof.
  apply (round_invariant step (fun e => refused (res e))). exact step_refused.
Qed.

Lemma loop_S (n : nat) (q : list SaleTask) (e : SaleEnv) :
  loop step (S n) q e =
  loop step n (snd (round step q e)) (fst (round step q e)).
Proof.
  destruct q as [|t q].
  - cbn. destruct n; reflexivity.
  - cbn [loop]. destruct (round step (t :: q) e). reflexivity.
Qed.

(** The rounds of line-item inserts and of inventory decrements have
    the same shape: run the statement; on error roll back and answer
    500, otherwise issue the next statement of the chain. *)
Section WriteRound.
Variables mk next : SaleItem -> SaleTask.
Variable stmt : SaleItem -> Stmt.
Variable err : Body.
Hypothesis step_mk : forall x e,
  step (mk x) e =
  match db_run F (stmt x) (conn e) with
  | (c, None) => (send (mkResponse 500 err) (with_conn c e), [TRollback])
  | (c, Some _) => (with_conn c e, [next x])
  end.
Hypothesis stmt_data : forall x, is_data (stmt x) = true.

Lemma write_round (l : list SaleItem) :
  forall e, forallb (fun x => negb (F (stmt x))) l = true ->
    round step (map mk l) e =
    (with_conn (mkConn (apply_all stmt l (cur (conn e))) (txn (conn e))) e,
     map next l).
Proof.
  induction l as [|a l IH]; intros e Hok.
  - cbn. destruct e as [[c t] ? ? ? ? ?]. reflexivity.
  - cbn [forallb] in Hok. apply andb_true_iff in Hok as [Ha Hl].
    apply negb_true_iff in Ha.
    cbn [map round]. rewrite step_mk, (db_run_data _ _ _ Ha (stmt_data a)).
    rewrite (IH _ Hl). reflexivity.
Qed.

Lemma write_round_refused (l : list SaleItem) :
  forall e, not_created (res e) ->
    forallb (fun x => negb (F (stmt x))) l = false ->
    refused (res (fst (round step (map mk l) e))).
Proof.
  induction l as [|a l IH]; intros e Hn Hbad; [discriminate|].
  cbn [forallb] in Hbad. cbn [map round]. rewrite step_mk.
  destruct (F (stmt a)) eqn:Ha.
  - rewrite (db_run_fail _ _ _ Ha).
    pose proof (round_refused (map mk l)
                  (send (mkResponse 500 err) (with_conn (conn e) e))) as Hr.
    destruct (round step (map mk l) _) as [e2 i2]. apply Hr.
    cbn. apply refused_after; [exact Hn | cbn; lia].
  - rewrite (db_run_data _ _ _ Ha (stmt_data a)).
    cbn [negb andb] in Hbad.
    specialize (IH (with_conn
                      (mkConn (fst (apply_stmt (stmt a) (cur (conn e))))
                              (txn (conn e))) e) Hn Hbad).
    destruct (round step (map mk l) _) as [e2 i2]. exact IH.
Qed.
End WriteRound.

Lemma movement_round (saleId finalTotal : Z) (l : list SaleItem) :
  forall e,
    (insertedItems e + List.length l <= List.length (saleItems e))%nat ->
    round step (map (TInsertMovement saleId finalTotal) l) e =
    (mkSaleEnv
       (mkConn (apply_all (movement_stmt userId saleId)
                  (filter (fun x => negb (F (movement_stmt userId saleId x))) l)
                  (cur (conn e)))
               (txn (conn e)))
       (totalAmount e) (processedItems e) (saleItems e)
       (insertedItems e + List.length l) (res e),
     if (1 <=? List.length l)%nat
        && (insertedItems e + List.length l =? List.length (saleItems e))%nat
     then [TCommit saleId finalTotal] else []).
Proof.
  induction l as [|a l IH]; intros e Hle.
  - cbn. rewrite Nat.add_0_r. destruct e as [[c t] ? ? ? ? ?]. reflexivity.
  - cbn [map round]. unfold sale_step at 1.
    fold (movement_stmt userId saleId a).
    rewrite db_exec_data by reflexivity.
    cbn [insertedItems saleItems List.length] in *.
    set (c1 := if F (movement_stmt userId saleId a) then _ else _).
    set (e1 := mkSaleEnv c1 _ _ _ _ _).
    assert (Hc1 : mkConn (apply_all (movement_stmt userId saleId)
                            (filter (fun x => negb (F (movement_stmt userId
                                                         saleId x))) l)
                            (cur c1)) (txn c1)
                  = mkConn (apply_all (movement_stmt userId saleId)
                              (filter (fun x => negb (F (movement_stmt userId
                                                           saleId x)))
                                      (a :: l))
                              (cur (conn e))) (txn (conn e))).
    { subst c1. cbn [filter].
      destruct (F (movement_stmt userId saleId a)); reflexivity. }
    destruct (Nat.eqb_spec (S (insertedItems e)) (List.length (saleItems e)))
      as [Hn|Hn].
    + destruct l as [|b l]; [|cbn in Hle; lia].
      cbn [map round app List.length filter apply_all fold_left] in *.
      rewrite (proj2 (Nat.eqb_eq (_ + 1) _)) by lia.
      cbn [Nat.leb andb]. subst e1. rewrite <- Hc1.
      rewrite Nat.add_1_r. destruct c1. reflexivity.
    + rewrite (IH e1) by (subst e1; cbn; lia).
      subst e1. cbn [conn totalAmount processedItems saleItems insertedItems
                     res app].
      rewrite Hc1, Nat.add_succ_comm. f_equal.
      destruct l as [|b l].
      * cbn [List.length Nat.leb andb].
        rewrite (proj2 (Nat.eqb_neq (_ + 1) _)) by lia. reflexivity.
      * reflexivity.
Qed.

Lemma check_item_status (item : Item) (row : option (option ProductStockRow))
      (r : Response) :
  check_item item row = inl r -> status r <> 201.
Proof.
  unfold check_item. destruct row as [[p|]|].
  - destruct (js_lt _ _); [|discriminate].
    intros H. injection H as <-. cbn. lia.
  - intros H. injection H as <-. cbn. lia.
  - intros H. injection H as <-. cbn. lia.
Qed.

Lemma rejections_refused (d : DB) (its : list Item) :
  rejections F d its <> [] ->
  refused (fold_left first_response (rejections F d its) None).
Proof.
  induction its as [|a its IH]; cbn [rejections]; [congruence|].
  destruct (line_check F d a) as [r|x] eqn:Hc; [|exact IH].
  intros _. cbn [fold_left first_response].
  rewrite fold_first_response_some. exists r. split; [reflexivity|].
  exact (check_item_status _ _ _ Hc).
Qed.

Lemma begin_cur (d : DB) : cur (db_exec F SBegin (connect d)) = d.
Proof. unfold db_exec, db_run. destruct (F SBegin); reflexivity. Qed.

Lemma begin_txn (d : DB) :
  txn (db_exec F SBegin (connect d)) = if F SBegin then None else Some d.
Proof. unfold db_exec, db_run. destruct (F SBegin); reflexivity. Qed.

(** After the first round: the lines are validated and either
    [createSale] was called or only rollbacks are pending. *)
Lemma first_round (db : DB) :
  round step (TBegin :: map TProductQuery (items req))
        (sale_env0 db) =
  let e0 := with_conn (db_exec F SBegin (connect db)) (sale_env0 db) in
  (validated_env F db e0 (items req),
   if sale_created F req db e0 (items req)
   then createSale req (validated_env F db e0 (items req))
   else map (fun _ => TRollback) (rejections F db (items req))).
Proof.
  cbn [round]. unfold sale_step at 1. cbn [conn sale_env0].
  rewrite (validation_round db (items req)); [reflexivity | apply begin_cur |].
  cbn. lia.
Qed.

Lemma valid_request_nonempty :
  valid_sale_request req = true -> (1 <= List.length (items req))%nat.
Proof.
  unfold valid_sale_request. intros H.
  apply andb_true_iff in H as [H _]. now apply Nat.leb_le in H.
Qed.

Lemma step_insert_sale (ft : Z) (e : SaleEnv) :
  step (TInsertSale ft) e =
  match db_run F (insert_sale_stmt userId req ft) (conn e) with
  | (c, None) =>
      (send (mkResponse 500 ErroCriarVenda) (with_conn c e), [TRollback])
  | (c, Some info) =>
      (with_conn c e, map (TInsertItem (lastID info) ft) (saleItems e))
  end.
Proof. reflexivity. Qed.

Lemma step_commit (saleId ft : Z) (e : SaleEnv) :
  step (TCommit saleId ft) e =
  match db_run F SCommit (conn e) with
  | (c, None) => (send (mkResponse 500 ErroConfirmarVenda) (with_conn c e), [])
  | (c, Some _) =>
      (send (mkResponse 201 (VendaCriada saleId ft
                               (List.length (saleItems e))))
            (with_conn c e), [])
  end.
Proof. reflexivity. Qed.

(** From [createSale] on: the header insert, then one round each of
    line-item inserts, inventory decrements and movement inserts, then
    the commit. *)
Lemma create_sale_rounds (c0 : Conn) (sis : list SaleItem) (ta ft : Z) :
  (1 <= List.length sis)%nat ->
  let saleId := sales_seq (cur c0) + 1 in
  let e1 := mkSaleEnv c0 ta (List.length sis) sis 0 None in
  let ok :=
    negb (F (insert_sale_stmt userId req ft))
    && forallb (fun x => negb (F (SInsertSaleItem saleId x))) sis
    && forallb (fun x => negb (F (sub_stmt x))) sis
    && negb (F SCommit)
    && match txn c0 with Some _ => true | None => false end in
  (ok = true /\
   fst (loop step 5 [TInsertSale ft] e1) =
   mkSaleEnv
     (mkConn
        (apply_all (movement_stmt userId saleId)
           (filter (fun x => negb (F (movement_stmt userId saleId x))) sis)
           (apply_all sub_stmt sis
              (apply_all (SInsertSaleItem saleId) sis
                 (fst (apply_stmt (insert_sale_stmt userId req ft)
                                  (cur c0))))))
        None)
     ta (List.length sis) sis (List.length sis)
     (Some (mkResponse 201 (VendaCriada saleId ft (List.length sis))))) \/
  (ok = false /\ refused (res (fst (loop step 5 [TInsertSale ft] e1)))).
Proof.
  intros Hlen saleId e1 ok. subst ok e1.
  rewrite loop_S. cbn [round]. rewrite step_insert_sale. cbn [conn].
  destruct (F (insert_sale_stmt userId req ft)) eqn:Hins.
  { right. split; [reflexivity|].
    rewrite db_run_fail by exact Hins. cbn [fst snd app].
    apply loop_refused. cbn. eexists. split; [reflexivity|]. cbn. lia. }
  rewrite db_run_data by (exact Hins || reflexivity).
  cbn [fst snd app saleItems with_conn lastID negb andb].
  rewrite app_nil_r.
  set (d2 := fst (apply_stmt (insert_sale_stmt userId req ft) (cur c0))).
  replace (lastID (snd (apply_stmt (insert_sale_stmt userId req ft) (cur c0))))
    with saleId by reflexivity.
  cbn [totalAmount processedItems insertedItems res].
  (* line items *)
  rewrite loop_S.
  destruct (forallb (fun x => negb (F (SInsertSaleItem saleId x))) sis)
    eqn:Hitems.
  2:{ right. split; [reflexivity|]. apply loop_refused.
      apply (write_round_refused (TInsertItem saleId ft)
               (TUpdateInventory saleId ft) (SInsertSaleItem saleId)
               ErroInserirItem); auto using not_created_none. }
  rewrite (write_round (TInsertItem saleId ft) (TUpdateInventory saleId ft)
             (SInsertSaleItem saleId) ErroInserirItem) by auto.
  cbn [fst snd conn with_conn cur txn totalAmount processedItems saleItems
       insertedItems res andb].
  (* inventory *)
  rewrite loop_S.
  destruct (forallb (fun x => negb (F (sub_stmt x))) sis) eqn:Hsubs.
  2:{ right. split; [reflexivity|]. apply loop_refused.
      apply (write_round_refused (TUpdateInventory saleId ft)
               (TInsertMovement saleId ft) sub_stmt ErroAtualizarEstoque);
        auto using not_created_none. }
  rewrite (write_round (TUpdateInventory saleId ft)
             (TInsertMovement saleId ft) sub_stmt ErroAtualizarEstoque)
    by auto.
  cbn [fst snd conn with_conn cur txn totalAmount processedItems saleItems
       insertedItems res andb].
  (* movements *)
  rewrite loop_S, movement_round by (cbn; lia).
  cbn [fst snd conn with_conn cur txn totalAmount processedItems saleItems
       insertedItems res andb Nat.add].
  rewrite (proj2 (Nat.leb_le _ _) Hlen), Nat.eqb_refl. cbn [andb].
  (* commit *)
  rewrite loop_S. cbn [round]. rewrite step_commit. cbn [conn saleItems].
  unfold db_run. destruct (F SCommit) eqn:Hcommit.
  { right. split; [reflexivity|]. cbn [fst snd app].
    apply loop_refused. cbn. eexists. split; [reflexivity|]. cbn. lia. }
  cbn [txn cur negb andb].
  destruct (txn c0) as [snapshot|].
  - left. split; reflexivity.
  - right. split; [reflexivity|]. cbn [fst snd app].
    apply loop_refused. cbn. eexists. split; [reflexivity|]. cbn. lia.
Qed.

Theorem create_sale_outcome (db : DB) :
  (sale_ok F userId req db = true /\
   create_sale F userId req db =
   (sold_db F userId req db,
    Some (mkResponse 201
            (VendaCriada (sales_seq db + 1) (final_total F req db)
               (List.length (validated_items F db (items req))))))) \/
  (sale_ok F userId req db = false /\
   refused (snd (create_sale F userId req db))).
Proof.
  unfold create_sale, create_sale_run, sale_ok.
  destruct (valid_sale_request req) eqn:Hv.
  2:{ right. split; [reflexivity|]. cbn.
      eexists. split; [reflexivity|]. cbn. lia. }
  pose proof (valid_request_nonempty Hv) as Hlen.
  pose proof (rejections_validated_length F db (items req)) as Hcount.
  rewrite loop_S, first_round. cbn zeta.
  set (e0 := with_conn (db_exec F SBegin (connect db)) (sale_env0 db)).
  destruct (rejections F db (items req)) as [|r rs] eqn:Hrej.
  2:{ right. split.
      { cbn [List.length Nat.eqb]. now rewrite andb_false_r. }
      cbn [fst snd]. apply loop_refused. unfold validated_env. cbn [res e0].
      apply rejections_refused. rewrite Hrej. congruence. }
  cbn [List.length] in Hcount.
  replace (sale_created F req db e0 (items req)) with true.
  2:{ unfold sale_created. rewrite Hrej. cbn [List.length Nat.eqb].
      rewrite (proj2 (Nat.leb_le _ _) Hlen).
      cbn [e0 with_conn sale_env0 processedItems Nat.add].
      now rewrite Nat.eqb_refl. }
  cbn [fst snd]. unfold createSale.
  set (sis := validated_items F db (items req)) in *.
  assert (He1 : validated_env F db e0 (items req)
                = mkSaleEnv (db_exec F SBegin (connect db))
                            (0 + sum_total_price sis)
                            (List.length sis) sis 0 None).
  { unfold validated_env. rewrite Hrej. reflexivity. }
  rewrite He1. cbn [totalAmount]. fold (final_total F req db).
  set (ft := final_total F req db).
  change (0 + sum_total_price sis - discount req + tax req) with ft.
  assert (Hsis : (1 <= List.length sis)%nat) by lia.
  pose proof (create_sale_rounds (db_exec F SBegin (connect db)) sis
                (0 + sum_total_price sis) ft Hsis) as H.
  cbn zeta in H. rewrite begin_cur, begin_txn in H.
  destruct H as [[Hok Hrun]|[Hok Hrun]].
  - left. split.
    + destruct (F SBegin), (F (insert_sale_stmt userId req ft)),
        (forallb (fun x => negb (F (SInsertSaleItem (sales_seq db + 1) x)))
                 sis),
        (forallb (fun x => negb (F (sub_stmt x))) sis), (F SCommit);
        cbn in Hok |- *; congruence.
    + rewrite Hrun. reflexivity.
  - right. split; [|exact Hrun].
    destruct (F SBegin), (F (insert_sale_stmt userId req ft)),
      (forallb (fun x => negb (F (SInsertSaleItem (sales_seq db + 1) x)))
               sis),
      (forallb (fun x => negb (F (sub_stmt x))) sis), (F SCommit);
      cbn in Hok |- *; congruence.
Qed.

Lemma untouched_persisted {db : DB} {c : Conn} :
  untouched db c -> persisted c = db.
Proof. intros [Hc [Ht|Ht]]; unfold persisted; rewrite Ht; auto. Qed.

Lemma untouched_begin (db : DB) : untouched db (db_exec F SBegin (connect db)).
Proof.
  split; [apply begin_cur|]. rewrite begin_txn.
  destruct (F SBegin); auto.
Qed.

Lemma untouched_rollback (db : DB) (c : Conn) :
  untouched db c -> untouched db (db_exec F SRollback c).
Proof.
  intros [Hc Ht]. unfold db_exec, db_run.
  destruct (F SRollback); [split; assumption|].
  destruct Ht as [Ht|Ht]; rewrite Ht; cbn.
  - split; [exact Hc | left; exact Ht].
  - split; cbn; auto.
Qed.

Lemma rollback_round (db : DB) {A : Type} (l : list A) :
  forall e, untouched db (conn e) ->
    exists c, untouched db c /\
      round step (map (fun _ => TRollback) l) e = (with_conn c e, []).
Proof.
  induction l as [|a l IH]; intros e He.
  - exists (conn e). split; [exact He|]. destruct e. reflexivity.
  - cbn [map round]. unfold sale_step at 1.
    destruct (IH (with_conn (db_exec F SRollback (conn e)) e))
      as [c [Hc Hr]].
    { cbn. now apply untouched_rollback. }
    exists c. split; [exact Hc|]. rewrite Hr. reflexivity.
Qed.

Lemma loop_nil (n : nat) (e : SaleEnv) : loop step n [] e = (e, []).
Proof. destruct n; reflexivity. Qed.

(** Validation failed for some line: the first rejection is the answer
    and nothing was written. *)
Theorem create_sale_rejected (db : DB) (r : Response) (rs : list Response) :
  valid_sale_request req = true ->
  rejections F db (items req) = r :: rs ->
  create_sale F userId req db = (db, Some r).
Proof.
  intros Hv Hrej. unfold create_sale, create_sale_run. rewrite Hv.
  rewrite loop_S, first_round. cbn zeta.
  set (e0 := with_conn (db_exec F SBegin (connect db)) (sale_env0 db)).
  replace (sale_created F req db e0 (items req)) with false.
  2:{ unfold sale_created. rewrite Hrej. cbn [List.length Nat.eqb].
      now rewrite andb_false_r. }
  cbn [fst snd]. rewrite loop_S.
  destruct (rollback_round db (rejections F db (items req))
              (validated_env F db e0 (items req))) as [c [Hc Hr]].
  { cbn. apply untouched_begin. }
  rewrite Hr. cbn [fst snd]. rewrite loop_nil. cbn [fst].
  cbn [with_conn conn res validated_env].
  rewrite (untouched_persisted Hc). rewrite Hrej.
  cbn [e0 with_conn sale_env0 res fold_left first_response].
  now rewrite fold_first_response_some.
Qed.

Theorem create_sale_invalid (db : DB) :
  valid_sale_request req = false ->
  create_sale F userId req db = (db, Some (mkResponse 400 ValidationErrors)).
Proof.
  intros Hv. unfold create_sale, create_sale_run. rewrite Hv. reflexivity.
Qed.

(** The header insert failed: rolled back, answered 500. *)
Theorem create_sale_header_fails (db : DB) :
  valid_sale_request req = true ->
  rejections F db (items req) = [] ->
  F (insert_sale_stmt userId req (final_total F req db)) = true ->
  create_sale F userId req db = (db, Some (mkResponse 500 ErroCriarVenda)).
Proof.
  intros Hv Hrej Hins. unfold create_sale, create_sale_run. rewrite Hv.
  pose proof (valid_request_nonempty Hv) as Hlen.
  rewrite loop_S, first_round. cbn zeta.
  set (e0 := with_conn (db_exec F SBegin (connect db)) (sale_env0 db)).
  replace (sale_created F req db e0 (items req)) with true.
  2:{ unfold sale_created. rewrite Hrej. cbn [List.length Nat.eqb].
      rewrite (proj2 (Nat.leb_le _ _) Hlen).
      cbn [e0 with_conn sale_env0 processedItems Nat.add].
      now rewrite Nat.eqb_refl. }
  cbn [fst snd]. unfold createSale.
  assert (He1 : validated_env F db e0 (items req)
                = mkSaleEnv (db_exec F SBegin (connect db))
                            (0 + sum_total_price
                                   (validated_items F db (items req)))
                            (List.length (validated_items F db (items req)))
                            (validated_items F db (items req)) 0 None).
  { unfold validated_env. rewrite Hrej. reflexivity. }
  rewrite He1. cbn [totalAmount]. fold (final_total F req db).
  rewrite loop_S. cbn [round]. rewrite step_insert_sale.
  rewrite db_run_fail by exact Hins. cbn [fst snd app].
  rewrite loop_S.
  destruct (rollback_round db [tt]
              (send (mkResponse 500 ErroCriarVenda)
                 (with_conn (db_exec F SBegin (connect db))
                    (mkSaleEnv (db_exec F SBegin (connect db))
                       (0 + sum_total_price
                              (validated_items F db (items req)))
                       (List.length (validated_items F db (items req)))
                       (validated_items F db (items req)) 0 None))))
    as [c [Hc Hr]].
  { cbn. apply untouched_begin. }
  cbn [map] in Hr. cbn [conn]. rewrite Hr. cbn [fst snd].
  rewrite loop_nil. cbn. now rewrite (untouched_persisted Hc).
Qed.
End SaleRounds.

(** The handler of POST /sales leaves nothing pending. *)
Theorem create_sale_idle (F : Faults) (userId : Z) (req : SaleRequest) (db : DB) :
  snd (create_sale_run F userId req db) = [].
Proof.
  unfold create_sale_run. destruct (valid_sale_request req); [|reflexivity].
  apply (loop_drains (sale_step F userId req) sale_rank 6) with (k := 1%nat).
  - intros t e. destruct t; unfold sale_step;
      repeat match goal with
             | |- context [match ?x with _ => _ end] => destruct x
             end; cbn [snd createSale];
      repeat constructor; try (apply Forall_map, Forall_forall; intros);
      cbn; lia.
  - lia.
  - constructor; [cbn; lia|]. apply Forall_map, Forall_forall. intros; cbn; lia.
Qed.

(** ** Status update, round by round *)

Section StatusRounds.
Variable F : Faults.
Variable userId : Z.
Variable saleId : Z.
Variable new_status : SaleStatus.

Local Abbreviation ustep := (status_step F userId saleId new_status).

Lemma status_loop_S (n : nat) (q : list StatusTask) (e : StatusEnv) :
  loop ustep (S n) q e =
  loop ustep n (snd (round ustep q e)) (fst (round ustep q e)).
Proof.
  destruct q as [|t q].
  - cbn. destruct n; reflexivity.
  - cbn [loop]. destruct (round ustep (t :: q) e). reflexivity.
Qed.





End StatusRounds.


(** ** What the statements of a round add up to *)

Lemma apply_all_cons {A} (stmt : A -> Stmt) (a : A) (l : list A) (d : DB) :
  apply_all stmt (a :: l) d = apply_all stmt l (fst (apply_stmt (stmt a) d)).
Proof. reflexivity. Qed.

Lemma apply_all_items (saleId : Z) (l : list SaleItem) :
  forall d,
    apply_all (SInsertSaleItem saleId) l d =
    mkDB (products d) (inventory d) (sales d)
         (sale_items d ++ map (item_row saleId) l)
         (inventory_movements d) (sales_seq d).
Proof.
  induction l as [|a l IH]; intros d.
  - cbn. rewrite app_nil_r. destruct d; reflexivity.
  - rewrite apply_all_cons, IH. cbn. now rewrite <- app_assoc.
Qed.

Lemma apply_all_sub (l : list SaleItem) :
  forall d,
    apply_all sub_stmt l d = set_inventory d (fold_left decrement l (inventory d)).
Proof.
  induction l as [|a l IH]; intros d.
  - destruct d; reflexivity.
  - rewrite apply_all_cons, IH. reflexivity.
Qed.


Lemma apply_all_movements {A} (mv : A -> Movement) (l : list A) :
  forall d,
    apply_all (fun x => SInsertMovement (mv x)) l d =
    mkDB (products d) (inventory d) (sales d) (sale_items d)
         (inventory_movements d ++ map mv l) (sales_seq d).
Proof.
  induction l as [|a l IH]; intros d.
  - cbn. rewrite app_nil_r. destruct d; reflexivity.
  - rewrite apply_all_cons, IH. cbn. now rewrite <- app_assoc.
Qed.

Lemma sold_db_eq (F : Faults) (userId : Z) (req : SaleRequest) (d : DB) :
  sold_db F userId req d =
  let saleItems := validated_items F d (items req) in
  let saleId := sales_seq d + 1 in
  mkDB (products d)
       (fold_left decrement saleItems (inventory d))
       (sales d ++ [mkSale saleId (customer_id req) userId
                           (final_total F req d) (discount req) (tax req)
                           (payment_method req) sales_status_default])
       (sale_items d ++ map (item_row saleId) saleItems)
       (inventory_movements d
        ++ map (sale_movement userId saleId)
               (filter (fun x => negb (F (movement_stmt userId saleId x)))
                       saleItems))
       saleId.
Proof.
  unfold sold_db, movement_stmt.
  rewrite (apply_all_movements (sale_movement userId (sales_seq d + 1))).
  rewrite apply_all_sub, apply_all_items. reflexivity.
Qed.


(** A 201 can only come from the committed path. *)
Lemma create_sale_201 (F : Faults) (userId : Z) (req : SaleRequest)
      (db db' : DB) (b : Body) :
  create_sale F userId req db = (db', Some (mkResponse 201 b)) ->
  sale_ok F userId req db = true
  /\ db' = sold_db F userId req db
  /\ b = VendaCriada (sales_seq db + 1) (final_total F req db)
                     (List.length (validated_items F db (items req))).
Proof.
  intros H.
  destruct (create_sale_outcome F userId req db) as [[Hok Hrun]|[_ Hr]].
  - rewrite Hrun in H. injection H as <- <-. auto.
  - rewrite H in Hr. destruct Hr as [x [Hx Hs]]. cbn in Hx.
    injection Hx as <-. cbn in Hs. congruence.
Qed.

Lemma sale_ok_no_rejections (F : Faults) (userId : Z) (req : SaleRequest)
      (db : DB) :
  sale_ok F userId req db = true ->
  valid_sale_request req = true /\ rejections F db (items req) = [].
Proof.
  unfold sale_ok. cbn zeta. intros H.
  do 6 (apply andb_true_iff in H as [H ?]).
  split; [assumption|].
  destruct (rejections F db (items req)); [reflexivity|].
  cbn in *. discriminate.
Qed.

(** What an accepted line looks like. *)
Lemma line_check_accepted (F : Faults) (d : DB) (it : Item) (x : SaleItem) :
  line_check F d it = inr x ->
  exists row,
    productQuery (item_product_id it) d = Some row
    /\ js_lt (ps_stock_quantity row) (item_quantity it) = false
    /\ x = mkSaleItem (item_product_id it) (item_quantity it) (ps_price row)
                      (item_quantity it * ps_price row).
Proof.
  unfold line_check, check_item, db_query. cbn [connect cur].
  destruct (F (SProductQuery (item_product_id it))); [discriminate|].
  destruct (productQuery (item_product_id it) d) as [row|]; [|discriminate].
  destruct (js_lt (ps_stock_quantity row) (item_quantity it)) eqn:Hlt;
    [discriminate|].
  intros H. injection H as <-. exists row. auto.
Qed.

Lemma validated_items_lines (F : Faults) (d : DB) (its : list Item) :
  rejections F d its = [] ->
  Forall2 (fun it x => line_check F d it = inr x) its (validated_items F d its).
Proof.
  induction its as [|a its IH]; cbn [rejections validated_items]; intros H.
  - constructor.
  - destruct (line_check F d a) as [r|x] eqn:Hc; [discriminate|].
    constructor; auto.
Qed.

(** ** Inventory arithmetic *)

Lemma add_quantity_add (a b : Z) (r : InventoryRow) :
  add_quantity a (add_quantity b r) = add_quantity (b + a) r.
Proof. unfold add_quantity. cbn. now rewrite Z.add_assoc. Qed.

Lemma add_quantity_0 (r : InventoryRow) : add_quantity 0 r = r.
Proof. destruct r. unfold add_quantity. cbn. now rewrite Z.add_0_r. Qed.

Lemma fold_decrement (l : list SaleItem) :
  forall inv,
    fold_left decrement l inv =
    map (fun r => add_quantity (- sold_quantity (i_product_id r) l) r) inv.
Proof.
  induction l as [|a l IH]; intros inv.
  - cbn. rewrite <- (map_id inv) at 1. apply map_ext. intros r.
    now rewrite add_quantity_0.
  - cbn [fold_left]. rewrite IH. unfold decrement at 1, adjust_inventory.
    rewrite map_map. apply map_ext. intros r. cbn [sold_quantity fold_right].
    fold (sold_quantity (i_product_id r) l).
    destruct (i_product_id r =? product_id a) eqn:Hp.
    + change (i_product_id (add_quantity (- quantity a) r))
        with (i_product_id r).
      rewrite add_quantity_add. f_equal. lia.
    + reflexivity.
Qed.




(** ** Lookups in the tables of a sold database *)

Lemma find_sale_new (saleId : Z) (l : list Sale) (s : Sale) :
  Forall (fun x => s_id x < saleId) l -> s_id s = saleId ->
  find (fun x => s_id x =? saleId) (l ++ [s]) = Some s.
Proof.
  intros Hl Hs. induction Hl as [|x l Hx Hl IH]; cbn.
  - now rewrite (proj2 (Z.eqb_eq _ _) Hs).
  - rewrite (proj2 (Z.eqb_neq _ _)) by lia. exact IH.
Qed.



(** ** Sale creation: the claims *)

Lemma seq_wf_new_id (d : DB) :
  seq_wf d ->
  Forall (fun x => s_id x < sales_seq d + 1) (sales d)
  /\ Forall (fun r => si_sale_id r < sales_seq d + 1) (sale_items d).
Proof.
  intros [Hs Hi]. split; (eapply Forall_impl; [|eassumption]); cbn; intros; lia.
Qed.

Lemma productQuery_price (pid : Z) (d : DB) (row : ProductStockRow) :
  productQuery pid d = Some row ->
  exists p, find_active_product pid d = Some p
            /\ ps_price row = p_price p /\ ps_name row = p_name p
            /\ ps_stock_quantity row = stock_of pid d.
Proof.
  unfold productQuery. destruct (find_active_product pid d) as [p|];
    [|discriminate].
  intros H. injection H as <-. exists p. cbn. auto.
Qed.




(** C9: every sale created through POST /sales is stored with status
    'concluida': the insert names no status and the column default
    applies, so the new sale is never pending and meets the guard of the
    cancellation branch at once. *)
Theorem C9_created_sale_is_completed (F : Faults) (userId : Z)
        (req : SaleRequest) (db db' : DB) (id total : Z) (n : nat) :
  seq_wf db ->
  create_sale F userId req db
  = (db', Some (mkResponse 201 (VendaCriada id total n))) ->
  exists sale,
    find_sale id db' = Some sale
    /\ s_status sale = sales_status_default
    /\ s_status sale = concluida
    /\ SaleStatus_eqb (s_status sale) concluida
       && SaleStatus_eqb cancelada cancelada = true.
Proof.
  intros Hwf H. apply create_sale_201 in H as [_ [-> Hb]].
  injection Hb as -> -> ->.
  apply seq_wf_new_id in Hwf as [Hs _].
  rewrite sold_db_eq. cbn zeta. unfold find_sale. cbn [sales].
  eexists. split; [apply (find_sale_new _ _ _ Hs); reflexivity|].
  cbn. auto.
Qed.

Lemma C9_created_sale_is_completed_witness :
  exists sale,
    find_sale 1 scenario_sold = Some sale
    /\ s_status sale = sales_status_default
    /\ s_status sale = concluida
    /\ SaleStatus_eqb (s_status sale) concluida
       && SaleStatus_eqb cancelada cancelada = true.
Proof.
  apply (C9_created_sale_is_completed no_faults 9 scenario_sale
           scenario_db scenario_sold 1 77700 1%nat).
  - split; constructor.
  - reflexivity.
Defined.

(** *** Rejected requests *)

Lemma rejections_app (F : Faults) (d : DB) (l1 l2 : list Item) :
  rejections F d (l1 ++ l2) = rejections F d l1 ++ rejections F d l2.
Proof.
  induction l1 as [|a l1 IH]; cbn [app rejections]; [reflexivity|].
  destruct (line_check F d a); cbn [app]; now rewrite IH.
Qed.

Lemma rejections_first (F : Faults) (d : DB) {its : list Item} {r : Response}
      {rs : list Response} :
  rejections F d its = r :: rs ->
  exists pre bad post,
    its = pre ++ bad :: post /\ rejections F d pre = []
    /\ line_check F d bad = inl r.
Proof.
  induction its as [|a its IH]; cbn [rejections]; [discriminate|].
  destruct (line_check F d a) as [x|x] eqn:Hc.
  - intros H. injection H as -> _. exists [], a, its. cbn. auto.
  - intros H. destruct (IH H) as [pre [bad [post [-> [Hpre Hbad]]]]].
    exists (a :: pre), bad, post. cbn [app rejections]. rewrite Hc. auto.
Qed.

Lemma rejections_in (F : Faults) (d : DB) {its : list Item} {it : Item}
      {r : Response} :
  In it its -> line_check F d it = inl r -> rejections F d its <> [].
Proof.
  induction its as [|a its IH]; cbn [In rejections]; [tauto|].
  intros [->|Hin] Hc.
  - rewrite Hc. discriminate.
  - destruct (line_check F d a); [discriminate | eauto].
Qed.

(** The three ways a line is rejected, and what the answer names. *)
Lemma line_check_rejected (F : Faults) (d : DB) (it : Item) (r : Response) :
  line_check F d it = inl r ->
  let pid := item_product_id it in
  (F (SProductQuery pid) = true /\ r = mkResponse 500 ErroValidarProduto)
  \/ (find_active_product pid d = None
      /\ r = mkResponse 400 (ProdutoNaoEncontradoOuInativo pid))
  \/ (exists p, find_active_product pid d = Some p
                /\ js_lt (stock_of pid d) (item_quantity it) = true
                /\ r = mkResponse 400 (EstoqueInsuficientePara (p_name p)
                                         (stock_of pid d))).
Proof.
  unfold line_check, check_item, db_query, productQuery. cbn [connect cur].
  destruct (F (SProductQuery (item_product_id it))).
  { intros H. injection H as <-. left. auto. }
  destruct (find_active_product (item_product_id it) d) as [p|].
  - cbn [ps_stock_quantity ps_name]. fold (stock_of (item_product_id it) d).
    destruct (js_lt (stock_of (item_product_id it) d) (item_quantity it))
      eqn:Hlt; [|discriminate].
    intros H. injection H as <-. right. right. exists p. auto.
  - intros H. injection H as <-. right. left. auto.
Qed.

Lemma line_check_fails (F : Faults) (d : DB) (it : Item) :
  find_active_product (item_product_id it) d = None
  \/ js_lt (stock_of (item_product_id it) d) (item_quantity it) = true ->
  exists r, line_check F d it = inl r.
Proof.
  unfold line_check, check_item, db_query, productQuery. cbn [connect cur].
  destruct (F (SProductQuery (item_product_id it))); [eauto|].
  destruct (find_active_product (item_product_id it) d) as [p|].
  - cbn [ps_stock_quantity]. fold (stock_of (item_product_id it) d).
    intros [H|H]; [discriminate|]. rewrite H. eauto.
  - eauto.
Qed.

(** "Does not exist or is inactive", on the rows of the table. *)
Lemma find_active_product_none (pid : Z) (d : DB) :
  find_active_product pid d = None <->
  forall p, In p (products d) -> p_id p = pid -> p_active p = false.
Proof.
  unfold find_active_product. split.
  - intros H p Hin Hid.
    pose proof (find_none _ _ H p Hin) as Hp. cbn in Hp.
    rewrite (proj2 (Z.eqb_eq _ _) Hid) in Hp. exact Hp.
  - intros H. induction (products d) as [|a l IH]; cbn; [reflexivity|].
    destruct (p_id a =? pid) eqn:Ha; cbn [andb].
    + rewrite (H a (or_introl eq_refl)) by now apply Z.eqb_eq.
      apply IH. intros p Hp. apply H. now right.
    + apply IH. intros p Hp. apply H. now right.
Qed.

Lemma valid_request_quantity (req : SaleRequest) (it : Item) :
  valid_sale_request req = true -> In it (items req) -> 1 <= item_quantity it.
Proof.
  unfold valid_sale_request. intros H Hin.
  apply andb_true_iff in H as [_ H].
  rewrite forallb_forall in H. specialize (H it Hin).
  apply andb_true_iff in H as [_ H]. now apply Z.leb_le.
Qed.

(** C3, as the code has it: when some line of a valid request references
    a product that does not exist or is inactive, or whose stock is below
    the requested quantity, the request is answered with the rejection of
    its first failing line and no table changes.  The rejection names the
    product id when the product is missing or inactive, and the product
    name with its available stock when the stock is insufficient. *)
Theorem C3_failing_line_rejects_sale (F : Faults) (userId : Z)
        (req : SaleRequest) (db : DB) (it : Item) :
  valid_sale_request req = true ->
  In it (items req) ->
  find_active_product (item_product_id it) db = None
  \/ (exists s, stock_of (item_product_id it) db = Some s
                /\ s < item_quantity it) ->
  exists pre bad post r,
    items req = pre ++ bad :: post
    /\ rejections F db pre = []
    /\ create_sale F userId req db = (db, Some r)
    /\ ((F (SProductQuery (item_product_id bad)) = true
         /\ r = mkResponse 500 ErroValidarProduto)
        \/ (find_active_product (item_product_id bad) db = None
            /\ r = mkResponse 400
                     (ProdutoNaoEncontradoOuInativo (item_product_id bad)))
        \/ (exists p,
               find_active_product (item_product_id bad) db = Some p
               /\ js_lt (stock_of (item_product_id bad) db) (item_quantity bad)
                  = true
               /\ r = mkResponse 400
                        (EstoqueInsuficientePara (p_name p)
                           (stock_of (item_product_id bad) db)))).
Proof.
  intros Hv Hin Hbad.
  assert (Hfail : exists r, line_check F db it = inl r).
  { apply line_check_fails. destruct Hbad as [H|[s [Hs Hlt]]]; [now left|].
    right. rewrite Hs. cbn. now apply Z.ltb_lt. }
  destruct Hfail as [r0 Hr0].
  pose proof (rejections_in F db Hin Hr0) as Hne.
  destruct (rejections F db (items req)) as [|r rs] eqn:Hrej; [congruence|].
  destruct (rejections_first F db Hrej)
    as [pre [bad [post [Hsplit [Hpre Hc]]]]].
  exists pre, bad, post, r. repeat split; auto.
  - now apply create_sale_rejected with rs.
  - now apply line_check_rejected.
Qed.

Lemma C3_failing_line_rejects_sale_witness :
  exists pre bad post r,
    [mkItem 1 30; mkItem 2 11] = pre ++ bad :: post
    /\ rejections no_faults scenario_db pre = []
    /\ create_sale no_faults 9 (scenario_req [mkItem 1 30; mkItem 2 11])
                   scenario_db = (scenario_db, Some r)
    /\ ((no_faults (SProductQuery (item_product_id bad)) = true
         /\ r = mkResponse 500 ErroValidarProduto)
        \/ (find_active_product (item_product_id bad) scenario_db = None
            /\ r = mkResponse 400
                     (ProdutoNaoEncontradoOuInativo (item_product_id bad)))
        \/ (exists p,
               find_active_product (item_product_id bad) scenario_db = Some p
               /\ js_lt (stock_of (item_product_id bad) scenario_db)
                        (item_quantity bad) = true
               /\ r = mkResponse 400
                        (EstoqueInsuficientePara (p_name p)
                           (stock_of (item_product_id bad) scenario_db)))).
Proof.
  apply (C3_failing_line_rejects_sale no_faults 9
           (scenario_req [mkItem 1 30; mkItem 2 11]) scenario_db (mkItem 2 11)).
  - reflexivity.
  - cbn. auto.
  - right. exists 10. split; [reflexivity | cbn; lia].
Defined.

(** The claim as the specification words it asks for the available stock
    in every rejection; the rejection of a missing product carries none. *)
Lemma C3_missing_product_rejection_names_no_stock :
  create_sale no_faults 9 (scenario_req [mkItem 7 1]) scenario_db
  = (scenario_db, Some (mkResponse 400 (ProdutoNaoEncontradoOuInativo 7)))
  /\ find_active_product 7 scenario_db = None
  /\ forall name stock,
       snd (create_sale no_faults 9 (scenario_req [mkItem 7 1]) scenario_db)
       <> Some (mkResponse 400 (EstoqueInsuficientePara name stock)).
Proof.
  split; [reflexivity|]. split; [reflexivity|].
  intros name stock. cbn. discriminate.
Qed.

(** C10: a line for a product that exists and is active but has no
    inventory row never passes: its stock reads as null, which is below
    any valid quantity, so the line is rejected as insufficient stock
    (available: null) and the request is never accepted. *)
Theorem C10_no_inventory_row_is_insufficient_stock (F : Faults) (userId : Z)
        (req : SaleRequest) (db : DB) (it : Item) (p : Product) :
  valid_sale_request req = true ->
  In it (items req) ->
  find_active_product (item_product_id it) db = Some p ->
  find_inventory (item_product_id it) db = None ->
  (F (SProductQuery (item_product_id it)) = false ->
   line_check F db it
   = inl (mkResponse 400 (EstoqueInsuficientePara (p_name p) None)))
  /\ (exists r, create_sale F userId req db = (db, Some r) /\ status r <> 201)
  /\ (forall pre post,
        items req = pre ++ it :: post -> rejections F db pre = [] ->
        F (SProductQuery (item_product_id it)) = false ->
        create_sale F userId req db
        = (db, Some (mkResponse 400 (EstoqueInsuficientePara (p_name p) None)))).
Proof.
  intros Hv Hin Hp Hinv.
  pose proof (valid_request_quantity req it Hv Hin) as Hq.
  assert (Hstock : stock_of (item_product_id it) db = None).
  { unfold stock_of. now rewrite Hinv. }
  assert (Hline : F (SProductQuery (item_product_id it)) = false ->
                  line_check F db it
                  = inl (mkResponse 400 (EstoqueInsuficientePara (p_name p) None))).
  { intros HF. unfold line_check, check_item, db_query, productQuery.
    cbn [connect cur]. rewrite HF, Hp. cbn [ps_stock_quantity ps_name].
    fold (stock_of (item_product_id it) db). rewrite Hstock.
    cbn [js_lt]. now rewrite (proj2 (Z.ltb_lt 0 _)) by lia. }
  split; [exact Hline|]. split.
  - destruct (line_check_fails F db it) as [r0 Hr0].
    { right. rewrite Hstock. cbn. apply Z.ltb_lt. lia. }
    pose proof (rejections_in F db Hin Hr0) as Hne.
    destruct (rejections F db (items req)) as [|r rs] eqn:Hrej; [congruence|].
    exists r. split; [now apply create_sale_rejected with rs|].
    destruct (rejections_first F db Hrej)
      as [pre [bad [post [_ [_ Hc]]]]].
    unfold line_check in Hc. now apply check_item_status in Hc.
  - intros pre post Hsplit Hpre HF.
    apply create_sale_rejected with (rejections F db post); [exact Hv|].
    rewrite Hsplit, rejections_app, Hpre. cbn [app rejections].
    now rewrite (Hline HF).
Qed.

Lemma C10_no_inventory_row_is_insufficient_stock_witness :
  (no_faults (SProductQuery 4) = false ->
   line_check no_faults scenario_db (mkItem 4 1)
   = inl (mkResponse 400 (EstoqueInsuficientePara "MDF Cru 15mm" None)))
  /\ (exists r,
        create_sale no_faults 9 (scenario_req [mkItem 1 30; mkItem 4 1])
                    scenario_db = (scenario_db, Some r) /\ status r <> 201)
  /\ (forall pre post,
        [mkItem 1 30; mkItem 4 1] = pre ++ mkItem 4 1 :: post ->
        rejections no_faults scenario_db pre = [] ->
        no_faults (SProductQuery 4) = false ->
        create_sale no_faults 9 (scenario_req [mkItem 1 30; mkItem 4 1])
                    scenario_db
        = (scenario_db,
           Some (mkResponse 400 (EstoqueInsuficientePara "MDF Cru 15mm" None)))).
Proof.
  apply (C10_no_inventory_row_is_insufficient_stock no_faults 9
           (scenario_req [mkItem 1 30; mkItem 4 1]) scenario_db (mkItem 4 1)
           (mkProduct 4 "MDF Cru 15mm" 7850 true)).
  - reflexivity.
  - cbn. auto.
  - reflexivity.
  - reflexivity.
Defined.

(** *** Atomicity *)

Lemma only_movement_faults_ok (F : Faults) (userId : Z) (req : SaleRequest)
      (db : DB) :
  (forall s, F s = true -> exists m, s = SInsertMovement m) ->
  valid_sale_request req = true ->
  rejections F db (items req) = [] ->
  sale_ok F userId req db = true.
Proof.
  intros Honly Hv Hrej.
  assert (Hno : forall s, (forall m, s <> SInsertMovement m) -> F s = false).
  { intros s Hs. destruct (F s) eqn:HF; [|reflexivity].
    destruct (Honly s HF) as [m ->]. now destruct (Hs m). }
  unfold sale_ok. cbn zeta. rewrite Hv, Hrej.
  rewrite (Hno SBegin), (Hno SCommit), (Hno (insert_sale_stmt _ _ _))
    by (intros; discriminate).
  cbn [negb andb List.length Nat.eqb].
  rewrite !andb_true_r. apply andb_true_iff. split.
  - apply forallb_forall. intros x _. rewrite Hno by (intros; discriminate).
    reflexivity.
  - apply forallb_forall. intros x _. rewrite Hno by (intros; discriminate).
    reflexivity.
Qed.

(** C1, as the code has it: a valid request whose product validation
    fails for some line, or whose sale-header insert fails, is answered
    with that error and leaves the database as it was; a failing
    movement-log insert is only logged: when nothing but movement inserts
    fails, the sale is committed and answered with 201, and exactly the
    movements whose insert failed are missing from the log. *)
Theorem C1_sale_aborts_or_commits (F : Faults) (userId : Z) (req : SaleRequest)
        (db : DB) :
  valid_sale_request req = true ->
  (forall r rs, rejections F db (items req) = r :: rs ->
                create_sale F userId req db = (db, Some r) /\ status r <> 201)
  /\ (rejections F db (items req) = [] ->
      F (insert_sale_stmt userId req (final_total F req db)) = true ->
      create_sale F userId req db = (db, Some (mkResponse 500 ErroCriarVenda)))
  /\ ((forall s, F s = true -> exists m, s = SInsertMovement m) ->
      rejections F db (items req) = [] ->
      let saleId := sales_seq db + 1 in
      let saleItems := validated_items F db (items req) in
      exists db',
        create_sale F userId req db
        = (db', Some (mkResponse 201
                        (VendaCriada saleId (final_total F req db)
                                     (List.length saleItems))))
        /\ sales db'
           = sales db ++ [mkSale saleId (customer_id req) userId
                                 (final_total F req db) (discount req) (tax req)
                                 (payment_method req) concluida]
        /\ sale_items db' = sale_items db ++ map (item_row saleId) saleItems
        /\ inventory db' = fold_left decrement saleItems (inventory db)
        /\ inventory_movements db'
           = inventory_movements db
             ++ map (sale_movement userId saleId)
                    (filter (fun x => negb (F (movement_stmt userId saleId x)))
                            saleItems)).
Proof.
  intros Hv. split; [|split].
  - intros r rs Hrej. split; [now apply create_sale_rejected with rs|].
    destruct (rejections_first F db Hrej) as [pre [bad [post [_ [_ Hc]]]]].
    unfold line_check in Hc. now apply check_item_status in Hc.
  - intros Hrej Hins. now apply create_sale_header_fails.
  - intros Honly Hrej saleId saleItems.
    pose proof (only_movement_faults_ok F userId req db Honly Hv Hrej) as Hok.
    destruct (create_sale_outcome F userId req db) as [[_ Hrun]|[Hno _]];
      [|congruence].
    exists (sold_db F userId req db). split; [exact Hrun|].
    rewrite sold_db_eq. cbn. auto.
Qed.

Lemma C1_sale_aborts_or_commits_witness :
  (create_sale no_faults 9 (scenario_req [mkItem 1 30; mkItem 2 11]) scenario_db
   = (scenario_db,
      Some (mkResponse 400
              (EstoqueInsuficientePara "Viga de Eucalipto 5x10x400cm"
                                       (Some 10))))
   /\ status (mkResponse 400
                (EstoqueInsuficientePara "Viga de Eucalipto 5x10x400cm"
                                         (Some 10))) <> 201)
  /\ create_sale header_faults 9 scenario_sale scenario_db
     = (scenario_db, Some (mkResponse 500 ErroCriarVenda))
  /\ exists db',
      create_sale movement_faults 9 scenario_sale scenario_db
      = (db', Some (mkResponse 201 (VendaCriada 1 77700 1)))
      /\ sales db' = [mkSale 1 None 9 77700 0 0 pix concluida]
      /\ sale_items db' = [mkSaleItemRow 1 1 30 2590 77700]
      /\ inventory db'
         = fold_left decrement [mkSaleItem 1 30 2590 77700]
                     (inventory scenario_db)
      /\ inventory_movements db' = [].
Proof.
  split; [|split].
  - apply (proj1 (C1_sale_aborts_or_commits no_faults 9
                    (scenario_req [mkItem 1 30; mkItem 2 11]) scenario_db
                    eq_refl)) with (rs := []).
    reflexivity.
  - apply (proj1 (proj2 (C1_sale_aborts_or_commits header_faults 9
                           scenario_sale scenario_db eq_refl)));
      reflexivity.
  - apply (proj2 (proj2 (C1_sale_aborts_or_commits movement_faults 9
                           scenario_sale scenario_db eq_refl))).
    + intros s Hs. destruct s; try discriminate Hs. eauto.
    + reflexivity.
Defined.

(** The claim as the specification words it also covers the movement-log
    insert.  Here that insert fails: the sale is committed all the same,
    reported as created, and the movement is missing. *)
Lemma C1_failed_movement_insert_is_committed :
  movement_faults (movement_stmt 9 1 (mkSaleItem 1 30 2590 77700)) = true
  /\ snd (create_sale movement_faults 9 scenario_sale scenario_db)
     = Some (mkResponse 201 (VendaCriada 1 77700 1))
  /\ fst (create_sale movement_faults 9 scenario_sale scenario_db)
     <> scenario_db
  /\ List.length
       (sales (fst (create_sale movement_faults 9 scenario_sale scenario_db)))
     = 1%nat
  /\ map i_quantity
         (inventory
            (fst (create_sale movement_faults 9 scenario_sale scenario_db)))
     = [70; 10; 50]
  /\ inventory_movements
       (fst (create_sale movement_faults 9 scenario_sale scenario_db)) = [].
Proof.
  repeat split; try reflexivity. vm_compute. discriminate.
Qed.

(** With two lines, a failing line-item insert rolls the transaction
    back while the chain of the other line goes on outside of it: its
    decrement and its movement stay. *)
Example line_item_failure_leaves_a_decrement :
  let F := fun s => match s with
                    | SInsertSaleItem _ (mkSaleItem 1 _ _ _) => true
                    | _ => false
                    end in
  let r := create_sale F 9 (scenario_req [mkItem 1 30; mkItem 2 5])
                       scenario_db in
  snd r = Some (mkResponse 500 ErroInserirItem)
  /\ sales (fst r) = []
  /\ map i_quantity (inventory (fst r)) = [100; 5; 50]
  /\ List.length (inventory_movements (fst r)) = 1%nat.
Proof. repeat split; reflexivity. Qed.

(** The scenarios of the specification. *)
Example scenario_sale_of_30 :
  create_sale no_faults 9 scenario_sale scenario_db
  = (scenario_sold, Some (mkResponse 201 (VendaCriada 1 (30 * 2590) 1)))
  /\ stock_of 1 scenario_sold = Some 70
  /\ inventory_movements scenario_sold
     = [mkMovement 1 saida 30 "Venda" 9 (Some 1) "sale"].
Proof. repeat split; reflexivity. Qed.

(** ** Status update: the claims *)


Lemma forallb_const_true {A} (l : list A) : forallb (fun _ => true) l = true.
Proof. induction l; cbn; auto. Qed.





Example scenario_sale_cancelled :
  let r := update_sale_status no_faults 9 1 cancelada scenario_sold in
  snd r = Some (mkResponse 200 StatusAtualizado)
  /\ stock_of 1 (fst r) = Some 100
  /\ inventory_movements (fst r)
     = [mkMovement 1 saida 30 "Venda" 9 (Some 1) "sale";
        mkMovement 1 entrada 30 "Cancelamento de venda" 9 (Some 1)
                   "sale_cancellation"].
Proof. repeat split; reflexivity. Qed.



(** The plain update: everything but the completed-to-cancelled
    transition. *)
Lemma plain_status_update (F : Faults) (userId saleId : Z) (st : SaleStatus)
      (db : DB) (sale : Sale) :
  find_sale saleId db = Some sale ->
  F (SSelectSale saleId) = false ->
  s_status sale <> concluida \/ st <> cancelada ->
  update_sale_status F userId saleId st db =
  if F (SUpdateSaleStatus st saleId)
  then (db, Some (mkResponse 500 ErroAtualizarVenda))
  else (fst (apply_stmt (SUpdateSaleStatus st saleId) db),
        Some (mkResponse 200 StatusAtualizado)).
Proof.
  intros Hfind HF Hnot.
  unfold update_sale_status, update_sale_status_run, db_query.
  cbn [status_env0 st_conn connect cur]. rewrite HF, Hfind.
  replace (SaleStatus_eqb (s_status sale) concluida
           && SaleStatus_eqb st cancelada) with false.
  2:{ destruct Hnot as [H|H]; [destruct (s_status sale) | destruct st];
        try reflexivity; try congruence.
      all: now rewrite andb_false_r. }
  destruct (F (SUpdateSaleStatus st saleId)) eqn:Hu.
  - rewrite db_run_fail by exact Hu. reflexivity.
  - rewrite db_run_data by (exact Hu || reflexivity). reflexivity.
Qed.




(** C6: updating the status of a sale that is not completed changes no
    inventory quantity and appends no movement: it is the plain status
    update, which writes the sales table only, whichever statement may
    fail. *)
Theorem C6_non_completed_update_leaves_inventory (F : Faults)
        (userId saleId : Z) (st : SaleStatus) (db : DB) :
  (forall sale, find_sale saleId db = Some sale -> s_status sale <> concluida) ->
  inventory (fst (update_sale_status F userId saleId st db)) = inventory db
  /\ inventory_movements (fst (update_sale_status F userId saleId st db))
     = inventory_movements db
  /\ (fst (update_sale_status F userId saleId st db) = db
      \/ fst (update_sale_status F userId saleId st db)
         = set_sales db (map (fun s => if s_id s =? saleId
                                       then set_status st s else s) (sales db)))
  /\ snd (update_sale_status_run F userId saleId st db) = [].
Proof.
  intros Hnot.
  destruct (F (SSelectSale saleId)) eqn:HF.
  { unfold update_sale_status, update_sale_status_run, db_query.
    rewrite HF. cbn. auto. }
  destruct (find_sale saleId db) as [sale|] eqn:Hfind.
  - rewrite (plain_status_update F userId saleId st db sale Hfind HF
               (or_introl (Hnot sale eq_refl))).
    assert (Hq : snd (update_sale_status_run F userId saleId st db) = []).
    { unfold update_sale_status_run, db_query.
      cbn [status_env0 st_conn connect cur]. rewrite HF, Hfind.
      replace (SaleStatus_eqb (s_status sale) concluida) with false.
      2:{ specialize (Hnot sale eq_refl). destruct (s_status sale);
            try reflexivity; congruence. }
      cbn [andb].
      destruct (db_run F (SUpdateSaleStatus st saleId) (connect db))
        as [c [info|]]; reflexivity. }
    destruct (F (SUpdateSaleStatus st saleId)); cbn; auto.
  - unfold update_sale_status, update_sale_status_run, db_query.
    cbn [status_env0 st_conn connect cur]. rewrite HF, Hfind. cbn. auto.
Qed.

Lemma C6_non_completed_update_leaves_inventory_witness :
  inventory (fst (update_sale_status no_faults 9 1 pendente scenario_cancelled))
  = inventory scenario_cancelled
  /\ inventory_movements
       (fst (update_sale_status no_faults 9 1 pendente scenario_cancelled))
     = inventory_movements scenario_cancelled
  /\ (fst (update_sale_status no_faults 9 1 pendente scenario_cancelled)
      = scenario_cancelled
      \/ fst (update_sale_status no_faults 9 1 pendente scenario_cancelled)
         = set_sales scenario_cancelled
             (map (fun s => if s_id s =? 1 then set_status pendente s else s)
                  (sales scenario_cancelled)))
  /\ snd (update_sale_status_run no_faults 9 1 pendente scenario_cancelled)
     = [].
Proof.
  apply (C6_non_completed_update_leaves_inventory no_faults 9 1 pendente
           scenario_cancelled).
  intros sale H. vm_compute in H. injection H as <-. cbn. discriminate.
Defined.

(** The handler of PUT /sales/:id/status leaves nothing pending. *)
Theorem update_sale_status_idle (F : Faults) (userId saleId : Z)
        (st : SaleStatus) (db : DB) :
  snd (update_sale_status_run F userId saleId st db) = [].
Proof.
  unfold update_sale_status_run.
  destruct (db_query F (SSelectSale saleId) (find_sale saleId)
                     (st_conn (status_env0 db))) as [[sale|]|];
    [|reflexivity|reflexivity].
  destruct (SaleStatus_eqb (s_status sale) concluida
            && SaleStatus_eqb st cancelada).
  - apply (loop_drains (status_step F userId saleId st) status_rank 5)
      with (k := 1%nat).
    + intros t e. destruct t; unfold status_step;
        repeat match goal with
               | |- context [match ?x with _ => _ end] => destruct x
               end; cbn [snd];
        repeat constructor; try (apply Forall_map, Forall_forall; intros);
        cbn; lia.
    + lia.
    + repeat constructor; cbn; lia.
  - destruct (db_run F (SUpdateSaleStatus st saleId)
                     (st_conn (status_env0 db))) as [c [info|]]; reflexivity.
Qed.

(** ** Manual removal *)

Lemma db_exec_begin (F : Faults) (d : DB) :
  F SBegin = false -> db_exec F SBegin (connect d) = mkConn d (Some d).
Proof. intros H. unfold db_exec, db_run. now rewrite H. Qed.

Lemma find_adjusted (delta pid : Z) (inv : list InventoryRow) (r : InventoryRow) :
  find (fun x => i_product_id x =? pid) inv = Some r ->
  find (fun x => i_product_id x =? pid) (adjust_inventory delta pid inv)
  = Some (add_quantity delta r).
Proof.
  induction inv as [|a inv IH]; cbn; [discriminate|].
  destruct (i_product_id a =? pid) eqn:Ha.
  - intros H. injection H as <-. cbn. now rewrite Ha.
  - rewrite Ha. exact IH.
Qed.

(** C7: a manual removal of more than the current stock is rejected as
    insufficient stock and changes nothing; a removal the stock covers
    decrements the quantity by exactly the requested amount and logs one
    'saida' movement, both or neither: once the transaction has begun,
    the request either commits the two together and answers 200, or
    leaves the database as it was and answers 500. *)
Theorem C7_remove_stock_checks_then_decrements (F : Faults)
        (userId pid qty : Z) (reason : string) (db : DB) (inv : InventoryRow) :
  1 <= qty -> nonempty reason = true ->
  F (SSelectInventory pid) = false ->
  find_inventory pid db = Some inv ->
  (i_quantity inv < qty ->
   remove_stock F userId pid qty reason db
   = (db, Some (mkResponse 400 (EstoqueInsuficiente (i_quantity inv)))))
  /\ (qty <= i_quantity inv -> F SBegin = false ->
      remove_stock F userId pid qty reason db
      = if F (SInventorySub qty pid)
        then (db, Some (mkResponse 500 ErroRemoverEstoque))
        else if F (SInsertMovement
                     (adjustment_movement pid saida qty reason userId))
        then (db, Some (mkResponse 500 ErroRegistrarMovimentacao))
        else if F SCommit
        then (db, Some (mkResponse 500 ErroConfirmarOperacao))
        else (removed_db userId pid qty reason db,
              Some (mkResponse 200 EstoqueRemovido)))
  /\ stock_of pid (removed_db userId pid qty reason db)
     = Some (i_quantity inv - qty).
Proof.
  intros Hq Hreason HF Hfind.
  assert (Hvalid : negb ((1 <=? qty) && nonempty reason) = false).
  { rewrite Hreason, (proj2 (Z.leb_le 1 qty) Hq). reflexivity. }
  split; [|split].
  - intros Hlt. unfold remove_stock, db_query. rewrite Hvalid, HF.
    cbn [connect cur]. rewrite Hfind.
    now rewrite (proj2 (Z.ltb_lt _ _) Hlt).
  - intros Hle Hb. unfold remove_stock, db_query. rewrite Hvalid, HF.
    cbn [connect cur]. rewrite Hfind.
    rewrite (proj2 (Z.ltb_ge _ _) Hle).
    cbn zeta. rewrite (db_exec_begin F db Hb).
    destruct (F (SInventorySub qty pid)) eqn:Hs.
    { rewrite db_run_fail by exact Hs. unfold db_exec, db_run.
      destruct (F SRollback); reflexivity. }
    rewrite db_run_data by (exact Hs || reflexivity). cbn [cur txn].
    destruct (F (SInsertMovement
                   (adjustment_movement pid saida qty reason userId))) eqn:Hm.
    { rewrite db_run_fail by exact Hm. unfold db_exec, db_run.
      destruct (F SRollback); reflexivity. }
    rewrite db_run_data by (exact Hm || reflexivity). cbn [cur txn].
    unfold db_run. destruct (F SCommit); reflexivity.
  - unfold stock_of, find_inventory, removed_db. cbn [inventory].
    rewrite (find_adjusted (- qty) pid (inventory db) inv Hfind).
    reflexivity.
Qed.

Lemma C7_remove_stock_checks_then_decrements_witness :
  (i_quantity (mkInventory 2 10 10 (Some 1000) "Estoque Principal") < 4 ->
   remove_stock no_faults 9 2 4 "quebra" scenario_db
   = (scenario_db,
      Some (mkResponse 400
              (EstoqueInsuficiente
                 (i_quantity (mkInventory 2 10 10 (Some 1000)
                                          "Estoque Principal"))))))
  /\ (4 <= i_quantity (mkInventory 2 10 10 (Some 1000) "Estoque Principal") ->
      no_faults SBegin = false ->
      remove_stock no_faults 9 2 4 "quebra" scenario_db
      = if no_faults (SInventorySub 4 2)
        then (scenario_db, Some (mkResponse 500 ErroRemoverEstoque))
        else if no_faults (SInsertMovement
                             (adjustment_movement 2 saida 4 "quebra" 9))
        then (scenario_db, Some (mkResponse 500 ErroRegistrarMovimentacao))
        else if no_faults SCommit
        then (scenario_db, Some (mkResponse 500 ErroConfirmarOperacao))
        else (removed_db 9 2 4 "quebra" scenario_db,
              Some (mkResponse 200 EstoqueRemovido)))
  /\ stock_of 2 (removed_db 9 2 4 "quebra" scenario_db)
     = Some (i_quantity (mkInventory 2 10 10 (Some 1000) "Estoque Principal")
             - 4).
Proof.
  apply (C7_remove_stock_checks_then_decrements no_faults 9 2 4 "quebra"
           scenario_db (mkInventory 2 10 10 (Some 1000) "Estoque Principal")).
  - lia.
  - reflexivity.
  - reflexivity.
  - reflexivity.
Defined.

Example remove_more_than_available :
  remove_stock no_faults 9 2 11 "quebra" scenario_db
  = (scenario_db, Some (mkResponse 400 (EstoqueInsuficiente 10))).
Proof. reflexivity. Qed.

(** ** The quantity invariant *)

Lemma conn_nonneg_connect (d : DB) : nonneg_inventory d -> conn_nonneg (connect d).
Proof. intros H. split; [exact H | discriminate]. Qed.

Lemma conn_nonneg_persisted (c : Conn) :
  conn_nonneg c -> nonneg_inventory (persisted c).
Proof.
  intros [Hc Ht]. unfold persisted. destruct (txn c) as [snapshot|]; auto.
Qed.

(** A statement that keeps the quantities of the working copy
    non-negative keeps the connection so, whether it fails or not. *)
Lemma db_run_nonneg (F : Faults) (s : Stmt) (c : Conn) :
  conn_nonneg c ->
  (nonneg_inventory (cur c) -> nonneg_inventory (fst (apply_stmt s (cur c)))) ->
  conn_nonneg (fst (db_run F s c)).
Proof.
  intros [Hc Ht] Hs. unfold db_run.
  destruct (F s); [split; assumption|].
  destruct s; cbn [fst]; try (split; [exact (Hs Hc) | exact Ht]);
    destruct (txn c) as [snapshot|] eqn:Htxn; cbn [fst];
    try (split; [assumption | rewrite ?Htxn; assumption]);
    split; cbn [cur txn]; auto; try discriminate.
  intros s' Hs'. injection Hs' as <-. exact Hc.
Qed.

Lemma db_run_nonneg_pair {F : Faults} {s : Stmt} {c c' : Conn}
      {o : option RunInfo} :
  db_run F s c = (c', o) ->
  conn_nonneg c ->
  (nonneg_inventory (cur c) -> nonneg_inventory (fst (apply_stmt s (cur c)))) ->
  conn_nonneg c'.
Proof.
  intros E Hc Hs. change c' with (fst (c', o)). rewrite <- E.
  now apply db_run_nonneg.
Qed.

Lemma add_nonneg (q pid : Z) (inv : list InventoryRow) :
  0 <= q -> Forall (fun r => 0 <= i_quantity r) inv ->
  Forall (fun r => 0 <= i_quantity r) (adjust_inventory q pid inv).
Proof.
  intros Hq H. unfold adjust_inventory. apply Forall_map.
  eapply Forall_impl; [|exact H]. intros r Hr. cbn beta in *.
  destruct (i_product_id r =? pid); cbn; lia.
Qed.

Lemma sub_nonneg (q pid : Z) (inv : list InventoryRow) (row : InventoryRow) :
  NoDup (map i_product_id inv) ->
  find (fun r => i_product_id r =? pid) inv = Some row ->
  q <= i_quantity row ->
  Forall (fun r => 0 <= i_quantity r) inv ->
  Forall (fun r => 0 <= i_quantity r) (adjust_inventory (- q) pid inv).
Proof.
  intros Hnd Hfind Hq H. induction H as [|a l Ha Hl IH]; [constructor|].
  cbn [map] in Hnd. inversion Hnd as [|? ? Hnotin Hnd']; subst.
  cbn [find] in Hfind. cbn [adjust_inventory map].
  destruct (i_product_id a =? pid) eqn:Hp.
  - injection Hfind as <-. apply Z.eqb_eq in Hp. constructor; [cbn; lia|].
    apply Forall_map, Forall_forall. intros r Hr. cbn beta.
    destruct (i_product_id r =? pid) eqn:Hr'.
    + apply Z.eqb_eq in Hr'. destruct Hnotin. rewrite Hp, <- Hr'.
      now apply in_map.
    + rewrite Forall_forall in Hl. now apply Hl.
  - constructor; [exact Ha | now apply IH].
Qed.

(** X12: the manual routes keep the quantities non-negative: POST .../add adds
    a validated, positive amount. *)
Lemma add_stock_nonneg (F : Faults) (userId pid qty : Z) (reason : string)
      (db : DB) :
  nonneg_inventory db ->
  nonneg_inventory (fst (add_stock F userId pid qty reason db)).
Proof.
  intros Hdb. unfold add_stock.
  destruct ((1 <=? qty) && nonempty reason) eqn:Hv; [|exact Hdb].
  apply andb_true_iff in Hv as [Hq _]. apply Z.leb_le in Hq.
  cbn [negb].
  assert (H0 : conn_nonneg (db_exec F SBegin (connect db))).
  { apply db_run_nonneg; [now apply conn_nonneg_connect | auto]. }
  destruct (db_run F (SInventoryAdd qty pid) (db_exec F SBegin (connect db)))
    as [c1 o1] eqn:E1.
  assert (H1 : conn_nonneg c1).
  { apply (db_run_nonneg_pair E1 H0). intros H. cbn.
    apply add_nonneg; [lia | exact H]. }
  assert (Hrb : forall c, conn_nonneg c ->
                          nonneg_inventory (persisted (db_exec F SRollback c))).
  { intros c Hc. apply conn_nonneg_persisted, db_run_nonneg; auto. }
  destruct o1 as [info|]; [|now apply Hrb].
  destruct (Nat.eqb (changes info) 0); [now apply Hrb|].
  destruct (db_run F (SInsertMovement _) c1) as [c2 o2] eqn:E2.
  assert (H2 : conn_nonneg c2).
  { apply (db_run_nonneg_pair E2 H1). auto. }
  destruct o2 as [info2|]; [|now apply Hrb].
  destruct (db_run F SCommit c2) as [c3 o3] eqn:E3.
  assert (H3 : conn_nonneg c3).
  { apply (db_run_nonneg_pair E3 H2). auto. }
  destruct o3; now apply conn_nonneg_persisted.
Qed.

(** X13: POST .../remove checks the stock first; with one inventory row per
    product the decrement cannot go below zero. *)
Lemma remove_stock_nonneg (F : Faults) (userId pid qty : Z) (reason : string)
      (db : DB) :
  nonneg_inventory db -> unique_inventory db ->
  nonneg_inventory (fst (remove_stock F userId pid qty reason db)).
Proof.
  intros Hdb Hu. unfold remove_stock.
  destruct (negb ((1 <=? qty) && nonempty reason)); [exact Hdb|].
  unfold db_query. destruct (F (SSelectInventory pid)); [exact Hdb|].
  cbn [connect cur].
  destruct (find_inventory pid db) as [row|] eqn:Hfind; [|exact Hdb].
  destruct (i_quantity row <? qty) eqn:Hlt; [exact Hdb|].
  apply Z.ltb_ge in Hlt.
  assert (H0 : conn_nonneg (db_exec F SBegin (connect db))).
  { apply db_run_nonneg; [now apply conn_nonneg_connect | auto]. }
  assert (Hcur : cur (db_exec F SBegin (connect db)) = db) by apply begin_cur.
  destruct (db_run F (SInventorySub qty pid) (db_exec F SBegin (connect db)))
    as [c1 o1] eqn:E1.
  assert (H1 : conn_nonneg c1).
  { apply (db_run_nonneg_pair E1 H0). intros _. rewrite Hcur. cbn.
    now apply sub_nonneg with row. }
  assert (Hrb : forall c, conn_nonneg c ->
                          nonneg_inventory (persisted (db_exec F SRollback c))).
  { intros c Hc. apply conn_nonneg_persisted, db_run_nonneg; auto. }
  destruct o1 as [info|]; [|now apply Hrb].
  destruct (db_run F (SInsertMovement _) c1) as [c2 o2] eqn:E2.
  assert (H2 : conn_nonneg c2).
  { apply (db_run_nonneg_pair E2 H1). auto. }
  destruct o2 as [info2|]; [|now apply Hrb].
  destruct (db_run F SCommit c2) as [c3 o3] eqn:E3.
  assert (H3 : conn_nonneg c3).
  { apply (db_run_nonneg_pair E3 H2). auto. }
  destruct o3; now apply conn_nonneg_persisted.
Qed.

(** X14: PUT /inventory/product/:id stores a validated quantity, or keeps the
    one it read. *)
Lemma update_inventory_nonneg (F : Faults) (userId pid : Z)
      (u : InventoryUpdate) (db : DB) :
  nonneg_inventory db ->
  nonneg_inventory (fst (update_inventory F userId pid u db)).
Proof.
  intros Hdb. unfold update_inventory.
  destruct (valid_optional (u_quantity u) && valid_optional (u_min_stock u)
            && valid_optional (u_max_stock u)) eqn:Hv; [|exact Hdb].
  apply andb_true_iff in Hv as [Hv _]. apply andb_true_iff in Hv as [Hq _].
  cbn [negb]. unfold db_query.
  destruct (F (SSelectActiveProduct pid)); [exact Hdb|].
  destruct (find_active_product pid (cur (connect db))); [|exact Hdb].
  destruct (F (SSelectInventory pid)); [exact Hdb|].
  cbn [connect cur].
  pose proof (conn_nonneg_connect db Hdb) as H0.
  destruct (find_inventory pid db) as [row|] eqn:Hfind.
  - assert (Hrow : 0 <= i_quantity row).
    { unfold find_inventory in Hfind. apply find_some in Hfind as [Hin _].
      unfold nonneg_inventory in Hdb. rewrite Forall_forall in Hdb.
      now apply Hdb. }
    assert (Hnew : 0 <= defined_or (u_quantity u) (i_quantity row)).
    { destruct (u_quantity u) as [q|]; cbn in *; [now apply Z.leb_le | exact Hrow]. }
    match goal with
    | |- context [db_run F ?s ?c] =>
        destruct (db_run F s c) as [c1 o1] eqn:E1
    end.
    assert (H1 : conn_nonneg c1).
    { apply (db_run_nonneg_pair E1 H0). intros H. cbn.
      unfold nonneg_inventory. cbn [inventory]. apply Forall_map.
      eapply Forall_impl; [|exact H]. intros r Hr. cbn beta in *.
      destruct (i_product_id r =? pid); cbn; assumption. }
    destruct o1 as [info|]; [|now apply conn_nonneg_persisted].
    cbn [fst]. apply conn_nonneg_persisted.
    destruct (u_quantity u) as [q|]; [|exact H1].
    destruct (negb (q =? i_quantity row)); [|exact H1].
    apply db_run_nonneg; auto.
  - match goal with
    | |- context [db_run F ?s ?c] =>
        destruct (db_run F s c) as [c1 o1] eqn:E1
    end.
    assert (H1 : conn_nonneg c1).
    { apply (db_run_nonneg_pair E1 H0). intros H. cbn.
      unfold nonneg_inventory. cbn [inventory]. apply Forall_app.
      split; [exact H|]. constructor; [|constructor]. cbn.
      destruct (u_quantity u) as [q|]; cbn in *; [now apply Z.leb_le | lia]. }
    destruct o1; now apply conn_nonneg_persisted.
Qed.

Lemma find_unique (pid : Z) (inv : list InventoryRow) (r : InventoryRow) :
  NoDup (map i_product_id inv) -> In r inv -> i_product_id r = pid ->
  find (fun x => i_product_id x =? pid) inv = Some r.
Proof.
  intros Hnd Hin Hp. induction inv as [|a l IH]; [destruct Hin|].
  cbn [map] in Hnd. inversion Hnd as [|? ? Hnotin Hnd']; subst.
  cbn [find]. destruct Hin as [->|Hin].
  - now rewrite Z.eqb_refl.
  - destruct (i_product_id a =? i_product_id r) eqn:Ha; [|now apply IH].
    apply Z.eqb_eq in Ha. destruct Hnotin. rewrite Ha. now apply in_map.
Qed.

Lemma sold_quantity_absent (pid : Z) (xs : list SaleItem) :
  ~ In pid (map product_id xs) -> sold_quantity pid xs = 0.
Proof.
  induction xs as [|x xs IH]; cbn [map In sold_quantity fold_right];
    [reflexivity|].
  intros H. fold (sold_quantity pid xs). rewrite IH by tauto.
  rewrite (proj2 (Z.eqb_neq pid (product_id x))) by (intros ->; tauto).
  reflexivity.
Qed.

Lemma sold_quantity_bound (pid bound : Z) (xs : list SaleItem) :
  NoDup (map product_id xs) -> 0 <= bound ->
  (forall x, In x xs -> product_id x = pid -> quantity x <= bound) ->
  sold_quantity pid xs <= bound.
Proof.
  intros Hnd Hb H. induction xs as [|x xs IH]; [cbn; lia|].
  cbn [map] in Hnd. inversion Hnd as [|? ? Hnotin Hnd']; subst.
  cbn [sold_quantity fold_right]. fold (sold_quantity pid xs).
  destruct (pid =? product_id x) eqn:Hp.
  - apply Z.eqb_eq in Hp. rewrite sold_quantity_absent by now rewrite Hp.
    rewrite Z.add_0_r. apply H; [now left | auto].
  - cbn [Z.add]. apply IH; [exact Hnd'|]. intros y Hy. apply H. now right.
Qed.

Lemma accepted_products {F : Faults} {d : DB} {its : list Item}
      {xs : list SaleItem} :
  Forall2 (fun it x => line_check F d it = inr x) its xs ->
  map product_id xs = map item_product_id its
  /\ Forall (fun x => js_lt (stock_of (product_id x) d) (quantity x) = false) xs.
Proof.
  induction 1 as [|it x its xs Hc _ [IH1 IH2]]; cbn [map].
  - split; constructor.
  - apply line_check_accepted in Hc as [row [Hq [Hlt ->]]].
    apply productQuery_price in Hq as [p [_ [_ [_ Hstock]]]].
    cbn [product_id quantity]. rewrite IH1. split; [reflexivity|].
    constructor; [|exact IH2]. cbn. now rewrite <- Hstock.
Qed.

(** X6: POST /sales keeps the quantities non-negative when no product is on
    two lines of the request (and no statement fails). *)
Lemma create_sale_nonneg_distinct (userId : Z) (req : SaleRequest) (db : DB) :
  nonneg_inventory db -> unique_inventory db ->
  NoDup (map item_product_id (items req)) ->
  nonneg_inventory (fst (create_sale no_faults userId req db)).
Proof.
  intros Hdb Hu Hnd.
  destruct (create_sale_outcome no_faults userId req db)
    as [[Hok Hrun]|[Hno _]].
  - rewrite Hrun. cbn [fst]. rewrite sold_db_eq. cbn zeta.
    unfold nonneg_inventory. cbn [inventory].
    apply sale_ok_no_rejections in Hok as [_ Hrej].
    destruct (accepted_products
                (validated_items_lines no_faults db (items req) Hrej))
      as [Hpids Hstock].
    rewrite <- Hpids in Hnd. rewrite fold_decrement. apply Forall_map.
    apply Forall_forall. intros r Hr. cbn.
    unfold nonneg_inventory in Hdb. rewrite Forall_forall in Hdb.
    pose proof (Hdb r Hr) as Hr0.
    assert (sold_quantity (i_product_id r)
                          (validated_items no_faults db (items req))
            <= i_quantity r); [|lia].
    apply sold_quantity_bound; [exact Hnd | exact Hr0 |].
    intros x Hx Hp. rewrite Forall_forall in Hstock.
    specialize (Hstock x Hx). unfold stock_of, find_inventory in Hstock.
    rewrite (find_unique (product_id x) (inventory db) r Hu Hr (eq_sym Hp))
      in Hstock.
    cbn in Hstock. now apply Z.ltb_ge.
  - unfold sale_ok, no_faults in Hno. cbn zeta in Hno.
    rewrite !forallb_const_true in Hno. cbn [negb] in Hno.
    rewrite !andb_true_r in Hno.
    destruct (valid_sale_request req) eqn:Hv.
    + cbn [andb] in Hno.
      destruct (rejections (fun _ => false) db (items req)) as [|r rs] eqn:Hrej;
        [discriminate|].
      now rewrite (create_sale_rejected no_faults userId req db r rs Hv Hrej).
    + now rewrite (create_sale_invalid no_faults userId req db Hv).
Qed.



(** C8 does not hold of POST /sales: every line is checked against the
    stock the database has before the sale, so two lines for the same
    product pass the check together and are then both decremented.
    Stock 10, two lines of 6: the sale is created and the stock is -2. *)
Theorem C8_duplicate_lines_oversell :
  nonneg_inventory scenario_db
  /\ valid_sale_request (scenario_req [mkItem 2 6; mkItem 2 6]) = true
  /\ stock_of 2 scenario_db = Some 10
  /\ snd (create_sale no_faults 9 (scenario_req [mkItem 2 6; mkItem 2 6])
                      scenario_db)
     = Some (mkResponse 201 (VendaCriada 1 107880 2))
  /\ stock_of 2 (fst (create_sale no_faults 9
                         (scenario_req [mkItem 2 6; mkItem 2 6]) scenario_db))
     = Some (-2)
  /\ ~ nonneg_inventory
        (fst (create_sale no_faults 9 (scenario_req [mkItem 2 6; mkItem 2 6])
                          scenario_db)).
Proof.
  split; [|repeat split; try reflexivity].
  - repeat constructor; cbn; lia.
  - intros H. unfold nonneg_inventory in H. rewrite Forall_forall in H.
    specialize (H (mkInventory 2 (-2) 10 (Some 1000) "Estoque Principal")).
    cbn [i_quantity] in H.
    assert (Hneg : 0 <= -2); [|lia].
    apply H. vm_compute. auto.
Qed.

(** * Beyond the claims *)

(** ** Every sale request is answered *)

(** X1: POST /sales always answers: whatever the request and whichever
    statements fail, some response is sent. *)
Theorem create_sale_is_answered (F : Faults) (userId : Z) (req : SaleRequest)
        (db : DB) :
  exists r, snd (create_sale F userId req db) = Some r.
Proof.
  destruct (create_sale_outcome F userId req db) as [[_ Hrun]|[_ [x [Hx _]]]].
  - rewrite Hrun. cbn. eauto.
  - eauto.
Qed.

(** ** Frames *)

Lemma conn_keeps_connect (P : DB -> Prop) (d : DB) : P d -> conn_keeps P (connect d).
Proof. intros H. split; [exact H | discriminate]. Qed.

Lemma conn_keeps_persisted (P : DB -> Prop) (c : Conn) :
  conn_keeps P c -> P (persisted c).
Proof.
  intros [Hc Ht]. unfold persisted. destruct (txn c) as [snapshot|]; auto.
Qed.

Lemma db_run_keeps (P : DB -> Prop) (F : Faults) (s : Stmt) (c : Conn) :
  conn_keeps P c ->
  (P (cur c) -> P (fst (apply_stmt s (cur c)))) ->
  conn_keeps P (fst (db_run F s c)).
Proof.
  intros [Hc Ht] Hs. unfold db_run.
  destruct (F s); [split; assumption|].
  destruct s; cbn [fst]; try (split; [exact (Hs Hc) | exact Ht]);
    destruct (txn c) as [snapshot|] eqn:Htxn; cbn [fst];
    try (split; [assumption | rewrite ?Htxn; assumption]);
    split; cbn [cur txn]; auto; try discriminate.
  intros s' Hs'. injection Hs' as <-. exact Hc.
Qed.

Lemma db_run_keeps_pair (P : DB -> Prop) {F : Faults} {s : Stmt} {c c' : Conn}
      {o : option RunInfo} :
  db_run F s c = (c', o) ->
  conn_keeps P c ->
  (P (cur c) -> P (fst (apply_stmt s (cur c)))) ->
  conn_keeps P c'.
Proof.
  intros E Hc Hs. change c' with (fst (c', o)). rewrite <- E.
  now apply db_run_keeps.
Qed.

Lemma same_but_quantity_refl (l : list InventoryRow) :
  Forall2 same_but_quantity l l.
Proof.
  induction l as [|a l IH]; constructor; [|exact IH]. now destruct a.
Qed.

Lemma same_but_quantity_adjust (delta pid : Z) (l l' : list InventoryRow) :
  Forall2 same_but_quantity l l' ->
  Forall2 same_but_quantity l (adjust_inventory delta pid l').
Proof.
  induction 1 as [|a b l l' Hab _ IH]; cbn [adjust_inventory map];
    constructor; [|exact IH].
  unfold same_but_quantity in *. rewrite Hab. cbn.
  destruct (i_product_id a =? pid); reflexivity.
Qed.

Lemma extends_refl (db : DB) : extends db db.
Proof.
  repeat split; try (exists []; now rewrite app_nil_r).
  apply same_but_quantity_refl.
Qed.

Lemma extends_sale_stmt (db d : DB) (s : Stmt) :
  match s with
  | SInsertSale _ _ _ _ _ _ | SInsertSaleItem _ _ | SInventorySub _ _
  | SInsertMovement _ | SBegin | SCommit | SRollback => True
  | _ => False
  end ->
  extends db d -> extends db (fst (apply_stmt s d)).
Proof.
  intros Hs [Hp [[l1 H1] [[l2 H2] [[l3 H3] Hi]]]].
  destruct s; try destruct Hs; cbn [apply_stmt fst]; unfold extends;
    cbn [products sales sale_items inventory_movements inventory set_inventory];
    (split; [exact Hp|]); (split; [|split; [|split]]);
    try (eexists; eassumption); try exact Hi.
  - eexists. rewrite H1, <- app_assoc. reflexivity.
  - eexists. rewrite H2, <- app_assoc. reflexivity.
  - now apply same_but_quantity_adjust.
  - eexists. rewrite H3, <- app_assoc. reflexivity.
Qed.

Lemma sale_step_extends (F : Faults) (userId : Z) (req : SaleRequest) (db : DB)
      (t : SaleTask) (e : SaleEnv) :
  conn_keeps (extends db) (conn e) ->
  conn_keeps (extends db) (conn (fst (sale_step F userId req t e))).
Proof.
  intros He. destruct t; unfold sale_step, db_exec;
    try match goal with
        | |- context [db_run F ?s (conn e)] =>
            let E := fresh "E" in
            destruct (db_run F s (conn e)) as [c o] eqn:E;
            assert (Hc : conn_keeps (extends db) c)
              by (apply (db_run_keeps_pair _ E He);
                  now apply extends_sale_stmt);
            try destruct o
        end; cbn [fst conn with_conn send]; try assumption.
  all: repeat match goal with
              | |- context [if ?b then _ else _] => destruct b
              | |- context [match ?x with _ => _ end] => destruct x
              end; cbn [fst conn with_conn send]; assumption.
Qed.

(** X2: POST /sales never rewrites what is there: whatever the request and
    whichever statements fail, the products are untouched, the sales,
    line items and movements that existed are still there in front of any
    new rows, and an inventory row can differ in its quantity only. *)
Theorem create_sale_extends (F : Faults) (userId : Z) (req : SaleRequest)
        (db : DB) :
  extends db (fst (create_sale F userId req db)).
Proof.
  unfold create_sale. cbn [fst]. apply conn_keeps_persisted.
  unfold create_sale_run.
  destruct (valid_sale_request req).
  - apply (loop_invariant (sale_step F userId req)
             (fun e => conn_keeps (extends db) (conn e))).
    + intros t e. apply sale_step_extends.
    + apply conn_keeps_connect, extends_refl.
  - cbn. apply conn_keeps_connect, extends_refl.
Qed.

Lemma status_frame_refl (saleId : Z) (db : DB) : status_frame saleId db db.
Proof.
  unfold status_frame. repeat split; try (exists []; now rewrite app_nil_r).
  - induction (sales db) as [|a l IH]; constructor; [|exact IH].
    split; [now destruct a | reflexivity].
  - apply same_but_quantity_refl.
Qed.

Lemma status_frame_stmt (saleId : Z) (db d : DB) (s : Stmt) :
  match s with
  | SInventoryAdd _ _ | SInsertMovement _ | SBegin | SCommit | SRollback
  | SSelectSale _ | SSelectSaleItems _ => True
  | SUpdateSaleStatus _ id => id = saleId
  | _ => False
  end ->
  status_frame saleId db d -> status_frame saleId db (fst (apply_stmt s d)).
Proof.
  intros Hs [Hp [Hit [Hseq [Hsales [[l Hm] Hi]]]]].
  destruct s; try destruct Hs; cbn [apply_stmt fst]; unfold status_frame;
    cbn [products sales sale_items inventory_movements inventory sales_seq
         set_inventory set_sales];
    (split; [exact Hp|]); (split; [exact Hit|]); (split; [exact Hseq|]);
    (split; [|split]); try exact Hsales; try (eexists; eassumption);
    try exact Hi.
  - now apply same_but_quantity_adjust.
  - eexists. rewrite Hm, <- app_assoc. reflexivity.
  - clear - Hsales. induction Hsales as [|a b l1 l2 [Hab Hother] _ IH];
      cbn [map]; constructor; [|exact IH].
    assert (Hid : s_id b = s_id a) by (rewrite Hab; reflexivity).
    match goal with
    | |- context [s_id b =? ?x] => destruct (s_id b =? x) eqn:Hb
    end.
    + split.
      * rewrite Hab. reflexivity.
      * intros Ha. apply Z.eqb_eq in Hb. congruence.
    + split; assumption.
Qed.

Lemma status_step_frame (F : Faults) (userId saleId : Z) (st : SaleStatus)
      (db : DB) (t : StatusTask) (e : StatusEnv) :
  conn_keeps (status_frame saleId db) (st_conn e) ->
  conn_keeps (status_frame saleId db)
             (st_conn (fst (status_step F userId saleId st t e))).
Proof.
  intros He. destruct t; unfold status_step, db_exec, db_query;
    try match goal with
        | |- context [db_run F ?s (st_conn e)] =>
            let E := fresh "E" in
            destruct (db_run F s (st_conn e)) as [c o] eqn:E;
            assert (Hc : conn_keeps (status_frame saleId db) c)
              by (apply (db_run_keeps_pair _ E He);
                  now apply status_frame_stmt);
            try destruct o
        end; cbn [fst st_conn st_with_conn st_send]; try assumption.
  all: repeat match goal with
              | |- context [if ?b then _ else _] => destruct b
              | |- context [match ?x with _ => _ end] => destruct x
              end; cbn [fst st_conn st_with_conn st_send]; assumption.
Qed.

(** X3: PUT /sales/:id/status, whatever the request and whichever statements
    fail: products, line items and the id counter are untouched; every
    sale keeps all its fields but the status, and only the addressed sale
    can change at all; movements are only appended; an inventory row can
    differ in its quantity only. *)
Theorem update_sale_status_frame (F : Faults) (userId saleId : Z)
        (st : SaleStatus) (db : DB) :
  status_frame saleId db (fst (update_sale_status F userId saleId st db)).
Proof.
  unfold update_sale_status. cbn [fst]. apply conn_keeps_persisted.
  unfold update_sale_status_run.
  pose proof (conn_keeps_connect _ db (status_frame_refl saleId db)) as H0.
  destruct (db_query F (SSelectSale saleId) (find_sale saleId)
                     (st_conn (status_env0 db))) as [[sale|]|];
    [|exact H0|exact H0].
  destruct (SaleStatus_eqb (s_status sale) concluida
            && SaleStatus_eqb st cancelada).
  - apply (loop_invariant (status_step F userId saleId st)
             (fun e => conn_keeps (status_frame saleId db) (st_conn e)));
      [|exact H0].
    intros t e. apply status_step_frame.
  - destruct (db_run F (SUpdateSaleStatus st saleId) (st_conn (status_env0 db)))
      as [c o] eqn:E.
    assert (Hc : conn_keeps (status_frame saleId db) c).
    { apply (db_run_keeps_pair _ E H0). now apply status_frame_stmt. }
    destruct o; exact Hc.
Qed.

(** ** What a created sale takes from the stock *)

Lemma find_map_row (f : InventoryRow -> InventoryRow) (pid : Z)
      (l : list InventoryRow) :
  (forall r, i_product_id (f r) = i_product_id r) ->
  find (fun x => i_product_id x =? pid) (map f l)
  = option_map f (find (fun x => i_product_id x =? pid) l).
Proof.
  intros Hf. induction l as [|a l IH]; cbn [map find]; [reflexivity|].
  rewrite Hf. destruct (i_product_id a =? pid); [reflexivity | exact IH].
Qed.




(** ** A completed sale without line items *)

Lemma status_loop_nil (F : Faults) (userId saleId : Z) (st : SaleStatus)
      (n : nat) (e : StatusEnv) :
  loop (status_step F userId saleId st) n [] e = (e, []).
Proof. destruct n; reflexivity. Qed.

(** X5: cancelling a completed sale that has no line items is never
    answered: [updateSaleStatus] is only called from the callback of the
    last item, so with no item the status is not updated, nothing is
    committed and no response is sent. *)
Theorem cancel_without_items_is_not_answered (F : Faults) (userId saleId : Z)
        (db : DB) (sale : Sale) :
  find_sale saleId db = Some sale ->
  s_status sale = concluida ->
  select_sale_items saleId db = [] ->
  F (SSelectSale saleId) = false ->
  F (SSelectSaleItems saleId) = false ->
  update_sale_status F userId saleId cancelada db = (db, None).
Proof.
  intros Hfind Hst Hitems HF Hsel.
  assert (Hrun : fst (update_sale_status_run F userId saleId cancelada db)
                 = mkStatusEnv (db_exec F SBegin (connect db)) [] 0 None).
  { unfold update_sale_status_run, db_query.
    cbn [status_env0 st_conn connect cur]. rewrite HF, Hfind, Hst.
    cbn [SaleStatus_eqb andb]. rewrite status_loop_S.
    assert (Hround : round (status_step F userId saleId cancelada)
                           [UBegin; USelectItems]
                           (mkStatusEnv (mkConn db None) [] 0 None)
                     = (mkStatusEnv (db_exec F SBegin (connect db)) [] 0 None,
                        [])).
    { cbn [round]. unfold status_step, db_query, db_exec, db_run.
      rewrite Hsel. destruct (F SBegin); cbn; now rewrite Hitems. }
    change (mkStatusEnv (mkConn db None) [] 0 None) with (status_env0 db)
      in Hround.
    rewrite Hround. cbn [fst snd]. now rewrite status_loop_nil. }
  unfold update_sale_status. rewrite Hrun. cbn [st_conn st_res].
  f_equal. apply (untouched_persisted (db := db)), untouched_begin.
Qed.

Lemma cancel_without_items_is_not_answered_witness :
  update_sale_status no_faults 9 1 cancelada
    (mkDB [] [] [mkSale 1 None 9 0 0 0 pix concluida] [] [] 1)
  = (mkDB [] [] [mkSale 1 None 9 0 0 0 pix concluida] [] [] 1, None).
Proof.
  apply (cancel_without_items_is_not_answered no_faults 9 1
           (mkDB [] [] [mkSale 1 None 9 0 0 0 pix concluida] [] [] 1)
           (mkSale 1 None 9 0 0 0 pix concluida)); reflexivity.
Defined.

(** ** Manual addition *)

Lemma count_rows_zero (pid : Z) (inv : list InventoryRow) :
  Nat.eqb (count_rows pid inv) 0
  = match find (fun r => i_product_id r =? pid) inv with
    | Some _ => false
    | None => true
    end.
Proof.
  unfold count_rows. induction inv as [|a l IH]; cbn [filter find];
    [reflexivity|].
  destruct (i_product_id a =? pid); [reflexivity | exact IH].
Qed.

Lemma add_stock_closed_form (F : Faults) (userId pid qty : Z)
      (reason : string) (db : DB) :
  1 <= qty -> nonempty reason = true -> F SBegin = false ->
  add_stock F userId pid qty reason db
  = if F (SInventoryAdd qty pid)
    then (db, Some (mkResponse 500 ErroAdicionarEstoque))
    else match find_inventory pid db with
         | None => (db, Some (mkResponse 404 ProdutoNaoEncontradoNoEstoque))
         | Some _ =>
             if F (SInsertMovement
                     (adjustment_movement pid entrada qty reason userId))
             then (db, Some (mkResponse 500 ErroRegistrarMovimentacao))
             else if F SCommit
             then (db, Some (mkResponse 500 ErroConfirmarOperacao))
             else (added_db userId pid qty reason db,
                   Some (mkResponse 200 EstoqueAdicionado))
         end.
Proof.
  intros Hq Hreason Hb.
  unfold add_stock. rewrite Hreason, (proj2 (Z.leb_le 1 qty) Hq).
  cbn [andb negb]. cbn zeta. rewrite (db_exec_begin F db Hb).
  assert (Hrb : forall d, persisted (db_exec F SRollback (mkConn d (Some db)))
                          = db).
  { intros d. unfold db_exec, db_run. destruct (F SRollback); reflexivity. }
  destruct (F (SInventoryAdd qty pid)) eqn:Hs.
  { rewrite db_run_fail by exact Hs. now rewrite Hrb. }
  rewrite db_run_data by (exact Hs || reflexivity).
  cbn [cur txn apply_stmt fst snd changes].
  rewrite count_rows_zero. unfold find_inventory.
  destruct (find (fun r => i_product_id r =? pid) (inventory db)) as [r|];
    [|now rewrite Hrb].
  destruct (F (SInsertMovement
                 (adjustment_movement pid entrada qty reason userId))) eqn:Hm.
  { rewrite db_run_fail by exact Hm. now rewrite Hrb. }
  rewrite db_run_data by (exact Hm || reflexivity). cbn [cur txn].
  unfold db_run. destruct (F SCommit); reflexivity.
Qed.

Lemma stock_of_adjusted (delta pid : Z) (inv : list InventoryRow) :
  option_map i_quantity
    (find (fun r => i_product_id r =? pid) (adjust_inventory delta pid inv))
  = option_map (fun q => q + delta)
      (option_map i_quantity (find (fun r => i_product_id r =? pid) inv)).
Proof.
  unfold adjust_inventory. rewrite find_map_row.
  - destruct (find (fun r => i_product_id r =? pid) inv) as [r|] eqn:Hr;
      [|reflexivity].
    apply find_some in Hr as [_ Hr]. cbn. now rewrite Hr.
  - intros r. now destruct (i_product_id r =? pid).
Qed.

(** X8: POST /inventory/product/:id/add, once the transaction has begun:
    without an inventory row for the product it answers 404 and changes
    nothing; otherwise it adds exactly the requested amount and logs one
    'entrada' movement, both or neither (a failing statement leaves the
    database as it was and is answered 500).  The product itself is not
    looked at: its row need not be active. *)
Theorem add_stock_adds_and_logs (F : Faults) (userId pid qty : Z)
        (reason : string) (db : DB) :
  1 <= qty -> nonempty reason = true -> F SBegin = false ->
  add_stock F userId pid qty reason db
  = (if F (SInventoryAdd qty pid)
     then (db, Some (mkResponse 500 ErroAdicionarEstoque))
     else match find_inventory pid db with
          | None => (db, Some (mkResponse 404 ProdutoNaoEncontradoNoEstoque))
          | Some _ =>
              if F (SInsertMovement
                      (adjustment_movement pid entrada qty reason userId))
              then (db, Some (mkResponse 500 ErroRegistrarMovimentacao))
              else if F SCommit
              then (db, Some (mkResponse 500 ErroConfirmarOperacao))
              else (added_db userId pid qty reason db,
                    Some (mkResponse 200 EstoqueAdicionado))
          end)
  /\ stock_of pid (added_db userId pid qty reason db)
     = option_map (fun q => q + qty) (stock_of pid db).
Proof.
  intros Hq Hreason Hb. split.
  - now apply add_stock_closed_form.
  - unfold stock_of, find_inventory, added_db. cbn [inventory].
    apply stock_of_adjusted.
Qed.

Lemma add_stock_adds_and_logs_witness :
  add_stock no_faults 9 2 5 "compra" scenario_db
  = (if no_faults (SInventoryAdd 5 2)
     then (scenario_db, Some (mkResponse 500 ErroAdicionarEstoque))
     else match find_inventory 2 scenario_db with
          | None => (scenario_db,
                     Some (mkResponse 404 ProdutoNaoEncontradoNoEstoque))
          | Some _ =>
              if no_faults (SInsertMovement
                              (adjustment_movement 2 entrada 5 "compra" 9))
              then (scenario_db, Some (mkResponse 500 ErroRegistrarMovimentacao))
              else if no_faults SCommit
              then (scenario_db, Some (mkResponse 500 ErroConfirmarOperacao))
              else (added_db 9 2 5 "compra" scenario_db,
                    Some (mkResponse 200 EstoqueAdicionado))
          end)
  /\ stock_of 2 (added_db 9 2 5 "compra" scenario_db)
     = option_map (fun q => q + 5) (stock_of 2 scenario_db).
Proof.
  apply (add_stock_adds_and_logs no_faults 9 2 5 "compra" scenario_db).
  - lia.
  - reflexivity.
  - reflexivity.
Defined.




(** ** Direct inventory update *)







(** ** The quantity invariant at work *)

Lemma scenario_nonneg : nonneg_inventory scenario_db.
Proof. repeat constructor; cbn; lia. Defined.

Lemma scenario_unique : unique_inventory scenario_db.
Proof.
  unfold unique_inventory. cbn. repeat constructor; cbn; intuition lia.
Defined.

Lemma add_stock_nonneg_witness :
  nonneg_inventory (fst (add_stock no_faults 9 2 5 "compra" scenario_db)).
Proof. apply add_stock_nonneg. exact scenario_nonneg. Defined.

Lemma remove_stock_nonneg_witness :
  nonneg_inventory (fst (remove_stock no_faults 9 2 10 "quebra" scenario_db)).
Proof.
  apply remove_stock_nonneg; [exact scenario_nonneg | exact scenario_unique].
Defined.

Lemma update_inventory_nonneg_witness :
  nonneg_inventory
    (fst (update_inventory no_faults 9 2
            (mkInventoryUpdate (Some 0) None None None) scenario_db)).
Proof. apply update_inventory_nonneg. exact scenario_nonneg. Defined.


Lemma create_sale_nonneg_distinct_witness :
  nonneg_inventory
    (fst (create_sale no_faults 9 (scenario_req [mkItem 1 100; mkItem 2 10])
                      scenario_db)).
Proof.
  apply create_sale_nonneg_distinct.
  - exact scenario_nonneg.
  - exact scenario_unique.
  - cbn. repeat constructor; cbn; intuition lia.
Defined.

(** ** Pagination *)











(** ** The customers table *)

Lemma sql_eq_sym (a b : option string) : sql_eq a b = sql_eq b a.
Proof.
  destruct a, b; cbn; try reflexivity. apply String.eqb_sym.
Qed.

Lemma sql_eq_null_r (a : option string) : sql_eq a None = false.
Proof. destruct a; reflexivity. Qed.

Lemma find_customer_in (id : Z) (t : CustomersTable) (c : Customer) :
  find_customer id t = Some c -> In c (customers t) /\ c_id c = id.
Proof.
  unfold find_customer. intros H. apply find_some in H as [Hin Hid].
  split; [assumption | lia].
Qed.

Lemma find_customer_unique (t : CustomersTable) (c : Customer) :
  NoDup (map c_id (customers t)) -> In c (customers t) ->
  find_customer (c_id c) t = Some c.
Proof.
  unfold find_customer. induction (customers t) as [|x l IH]; cbn.
  - intros _ [].
  - intros Hnd [-> | Hin].
    + rewrite Z.eqb_refl. reflexivity.
    + inversion Hnd as [|? ? Hx Hl]; subst.
      destruct (c_id x =? c_id c) eqn:E.
      * exfalso. apply Hx. apply Z.eqb_eq in E. rewrite E.
        apply in_map. assumption.
      * apply IH; assumption.
Qed.

Lemma find_customer_beyond (id : Z) (t : CustomersTable) :
  Forall (fun c => c_id c <= customers_seq t) (customers t) ->
  customers_seq t < id -> find_customer id t = None.
Proof.
  unfold find_customer. intros Hle Hlt.
  induction Hle as [|x l Hx Hl IH]; cbn; [reflexivity|].
  destruct (c_id x =? id) eqn:E; [lia | assumption].
Qed.

Lemma find_customer_app (id : Z) (l : list Customer) (c : Customer) (s s' : Z) :
  find_customer id (mkCustomersTable (l ++ [c]) s')
  = match find_customer id (mkCustomersTable l s) with
    | Some x => Some x
    | None => if c_id c =? id then Some c else None
    end.
Proof.
  unfold find_customer. cbn. induction l as [|x l IH]; cbn.
  - reflexivity.
  - destruct (c_id x =? id); [reflexivity | assumption].
Qed.

Lemma find_customer_map (id : Z) (f : Customer -> Customer)
      (l : list Customer) (s s' : Z) :
  (forall c, c_id (f c) = c_id c) ->
  find_customer id (mkCustomersTable (map f l) s')
  = option_map f (find_customer id (mkCustomersTable l s)).
Proof.
  intros Hf. unfold find_customer. cbn. induction l as [|x l IH]; cbn.
  - reflexivity.
  - rewrite Hf. destruct (c_id x =? id); [reflexivity | assumption].
Qed.

Lemma map_keeps_ids (f : Customer -> Customer) (l : list Customer) :
  (forall c, c_id (f c) = c_id c) -> map c_id (map f l) = map c_id l.
Proof.
  intros Hf. rewrite map_map. apply map_ext. assumption.
Qed.

Lemma valid_customer_body_name (isEmail : string -> bool) (b : CustomerBody)
      (name : string) (ty : CustomerType) :
  valid_customer_body isEmail b = Some (name, ty) ->
  b_name b = Some name /\ b_customer_type b = Some ty.
Proof.
  unfold valid_customer_body.
  destruct (b_name b), (b_customer_type b); try discriminate.
  destruct (_ && _); [|discriminate].
  intros [= -> ->]. split; reflexivity.
Qed.

(** A table extended by a customer that clashes with none keeps the
    invariant. *)
Lemma customers_wf_insert (t : CustomersTable) (c : Customer) :
  customers_wf t ->
  c_id c = customers_seq t + 1 ->
  (forall x, In x (customers t) -> no_clash x c) ->
  customers_wf (mkCustomersTable (customers t ++ [c]) (customers_seq t + 1)).
Proof.
  intros (Hnd & Hle & Hcl) Hid Hnew. unfold customers_wf. cbn.
  assert (Hfresh : ~ In (c_id c) (map c_id (customers t))).
  { intros Hin. apply in_map_iff in Hin as (x & Hx & Hin).
    rewrite Forall_forall in Hle. specialize (Hle x Hin). cbn in Hle. lia. }
  split; [|split].
  - rewrite map_app. cbn.
    clear Hle Hcl Hnew.
    induction (customers t) as [|x l IH]; cbn.
    + constructor; [intros [] | constructor].
    + inversion Hnd as [|? ? Hx Hl]; subst. constructor.
      * rewrite in_app_iff. intros [Hin | [Heq | []]].
        -- apply Hx. assumption.
        -- apply Hfresh. left. symmetry. assumption.
      * apply IH; [assumption|]. intros Hin. apply Hfresh. right. assumption.
  - apply Forall_app. split.
    + eapply Forall_impl; [|exact Hle]. cbn. intros; lia.
    + constructor; [lia | constructor].
  - intros a b Ha Hb Hab.
    apply in_app_iff in Ha as [Ha | [<- | []]];
      apply in_app_iff in Hb as [Hb | [<- | []]].
    + apply Hcl; assumption.
    + apply Hnew. assumption.
    + destruct (Hnew b Hb) as [He Hc].
      split; rewrite sql_eq_sym; assumption.
    + congruence.
Qed.

(** A table in which the customers of one id are replaced by a customer
    of that id that clashes with none of the others keeps the
    invariant. *)
Lemma customers_wf_replace (t : CustomersTable) (id : Z)
      (f : Customer -> Customer) :
  customers_wf t ->
  (forall c, c_id (f c) = c_id c) ->
  (forall x y, In x (customers t) -> In y (customers t) ->
               c_id x = id -> c_id y <> id -> no_clash y (f x)) ->
  customers_wf
    (mkCustomersTable
       (map (fun c => if c_id c =? id then f c else c) (customers t))
       (customers_seq t)).
Proof.
  intros (Hnd & Hle & Hcl) Hf Hnew. unfold customers_wf. cbn.
  set (g := fun c => if c_id c =? id then f c else c).
  assert (Hg : forall c, c_id (g c) = c_id c).
  { intros c. unfold g. destruct (c_id c =? id); [apply Hf | reflexivity]. }
  split; [|split].
  - rewrite map_keeps_ids; assumption.
  - rewrite Forall_forall in *. intros x Hx.
    apply in_map_iff in Hx as (x0 & <- & Hx0). rewrite Hg.
    apply Hle. assumption.
  - intros a b Ha Hb Hab.
    apply in_map_iff in Ha as (a0 & <- & Ha0).
    apply in_map_iff in Hb as (b0 & <- & Hb0).
    rewrite !Hg in Hab. unfold g.
    destruct (c_id a0 =? id) eqn:Ea; destruct (c_id b0 =? id) eqn:Eb.
    + lia.
    + destruct (Hnew a0 b0 Ha0 Hb0) as [He Hc]; [lia | lia |].
      split; rewrite sql_eq_sym; assumption.
    + apply Hnew; [assumption | assumption | lia | lia].
    + apply Hcl; assumption.
Qed.

(** X18: POST /customers, PUT /customers/:id and DELETE /customers/:id keep
    the customers table well formed, whatever the body and whichever
    statements fail: ids stay unique and within the counter, and no two
    customers share a stored email or a stored CPF/CNPJ. *)
Theorem customers_routes_keep_unique_contacts
        (isEmail : string -> bool) (F : CustomerFaults)
        (id : Z) (b : CustomerBody) (t : CustomersTable) :
  customers_wf t ->
  customers_wf (fst (create_customer isEmail F b t))
  /\ customers_wf (fst (update_customer isEmail F id b t))
  /\ customers_wf (fst (delete_customer F id t)).
Proof.
  intros Hwf. split; [|split].
  - unfold create_customer.
    destruct (valid_customer_body isEmail b) as [[name ty]|];
      [|assumption].
    destruct (F (CSelectExisting _ _)); [assumption|].
    destruct (find_existing _ _ t) eqn:Hfind; [assumption|].
    destruct (F (CInsert b)); [assumption|].
    assert (customers_wf
              (mkCustomersTable
                 (customers t
                  ++ [customer_of_body (customers_seq t + 1) name ty true b])
                 (customers_seq t + 1))) as Hnew.
    { apply customers_wf_insert; [assumption | reflexivity |].
      intros x Hx. unfold find_existing in Hfind.
      pose proof (find_none _ _ Hfind x Hx) as Hno. cbn in Hno.
      apply orb_false_iff in Hno. exact Hno. }
    cbn zeta. destruct (F (CSelectCreated _)); exact Hnew.
  - unfold update_customer.
    destruct (valid_customer_body isEmail b) as [[name ty]|];
      [|assumption].
    destruct (F (CSelectById id)); [assumption|].
    destruct (find_customer id t); [|assumption].
    destruct (F (CSelectExistingOther _ _ _)); [assumption|].
    destruct (find_existing_other _ _ id t) eqn:Hfind; [assumption|].
    destruct (F (CUpdate b id)); [assumption|].
    assert (customers_wf
              (mkCustomersTable
                 (map (fun c => if c_id c =? id
                                then customer_of_body (c_id c) name ty
                                       (active_flag (b_active b)) b
                                else c) (customers t))
                 (customers_seq t))) as Hnew.
    { apply (customers_wf_replace t id
               (fun c => customer_of_body (c_id c) name ty
                           (active_flag (b_active b)) b));
        [assumption | reflexivity |].
      intros x y _ Hy _ Hyid. unfold find_existing_other in Hfind.
      pose proof (find_none _ _ Hfind y Hy) as Hno. cbn in Hno.
      apply andb_false_iff in Hno as [Hno | Hno].
      - apply orb_false_iff in Hno. exact Hno.
      - apply negb_false_iff, Z.eqb_eq in Hno. contradiction. }
    cbn zeta. destruct (F (CSelectUpdated _)); exact Hnew.
  - unfold delete_customer.
    destruct (F (CDeactivate id)); [assumption|].
    assert (customers_wf
              (mkCustomersTable
                 (map (fun c => if c_id c =? id then deactivate c else c)
                      (customers t))
                 (customers_seq t))) as Hnew.
    { apply (customers_wf_replace t id deactivate);
        [assumption | reflexivity |].
      intros x y Hx Hy Hxid Hyid. destruct Hwf as (_ & _ & Hcl).
      apply (Hcl y x Hy Hx). lia. }
    cbn zeta. destruct (Nat.eqb _ 0); exact Hnew.
Qed.

Lemma scenario_customers_wf : customers_wf scenario_customers.
Proof.
  unfold customers_wf, scenario_customers. cbn. split; [|split].
  - repeat constructor; cbn; intuition lia.
  - repeat constructor; cbn; lia.
  - intros a b [<- | [<- | []]] [<- | [<- | []]] Hab; cbn in *;
      try (exfalso; apply Hab; reflexivity); split; reflexivity.
Defined.

Lemma customers_routes_keep_unique_contacts_witness :
  customers_wf
    (fst (create_customer (fun _ => true) no_customer_faults
            (mkCustomerBody (Some "Ana"%string) None None None None None None
                            None (Some pessoa_fisica) None)
            scenario_customers))
  /\ customers_wf
       (fst (update_customer (fun _ => true) no_customer_faults 2
               (mkCustomerBody (Some "Ana"%string) None None None None None
                               None None (Some pessoa_fisica) None)
               scenario_customers))
  /\ customers_wf (fst (delete_customer no_customer_faults 2 scenario_customers)).
Proof.
  apply customers_routes_keep_unique_contacts. exact scenario_customers_wf.
Defined.

Lemma find_all_false {A} (p : A -> bool) (l : list A) :
  (forall x, In x l -> p x = false) -> find p l = None.
Proof.
  induction l as [|x l IH]; cbn; [reflexivity|]. intros H.
  rewrite (H x) by (left; reflexivity). apply IH.
  intros y Hy. apply H. right. assumption.
Qed.

(** X19: POST /customers refuses a body whose email or CPF/CNPJ is stored
    with any customer, deactivated ones included: the answer is 400 and
    the table is unchanged. *)
Theorem create_customer_rejects_known_contacts
        (isEmail : string -> bool) (F : CustomerFaults)
        (b : CustomerBody) (t : CustomersTable) (c : Customer) :
  valid_customer_body isEmail b <> None ->
  F (CSelectExisting (b_email b) (b_cpf_cnpj b)) = false ->
  In c (customers t) ->
  sql_eq (c_email c) (b_email b) = true
  \/ sql_eq (c_cpf_cnpj c) (b_cpf_cnpj b) = true ->
  create_customer isEmail F b t = (t, mkCustomerResponse 400 ClienteJaExiste).
Proof.
  intros Hv HF Hin Hdup. unfold create_customer.
  destruct (valid_customer_body isEmail b) as [[name ty]|]; [|congruence].
  rewrite HF.
  destruct (find_existing _ _ t) eqn:Hfind; [reflexivity|].
  unfold find_existing in Hfind.
  pose proof (find_none _ _ Hfind c Hin) as Hno. cbn in Hno.
  apply orb_false_iff in Hno as [He Hc].
  destruct Hdup; congruence.
Qed.

Lemma create_customer_rejects_known_contacts_witness :
  create_customer (fun _ => true) no_customer_faults
    (mkCustomerBody (Some "Ana"%string) (Some "contato@boavista.com"%string)
                    None None None None None None (Some pessoa_fisica) None)
    scenario_customers
  = (scenario_customers, mkCustomerResponse 400 ClienteJaExiste).
Proof.
  apply (create_customer_rejects_known_contacts _ _ _ _
           (mkCustomer 1 "Serraria Boa Vista"%string
                       (Some "contato@boavista.com"%string) None
                       (Some "12345678000199"%string) None None None None
                       pessoa_juridica true)).
  - discriminate.
  - reflexivity.
  - left. reflexivity.
  - left. reflexivity.
Defined.

(** X20: a valid body that names neither an email nor a CPF/CNPJ is never
    taken for a duplicate: NULL equals nothing, so POST /customers
    creates the customer whatever the table holds. *)
Theorem create_customer_without_contacts_is_created
        (isEmail : string -> bool) (b : CustomerBody) (t : CustomersTable) :
  valid_customer_body isEmail b <> None ->
  b_email b = None -> b_cpf_cnpj b = None ->
  cr_status (snd (create_customer isEmail no_customer_faults b t)) = 201
  /\ List.length (customers (fst (create_customer isEmail no_customer_faults
                                                  b t)))
     = S (List.length (customers t)).
Proof.
  intros Hv He Hc. unfold create_customer.
  destruct (valid_customer_body isEmail b) as [[name ty]|]; [|congruence].
  cbn [no_customer_faults].
  assert (Hfind : find_existing (b_email b) (b_cpf_cnpj b) t = None).
  { unfold find_existing. apply find_all_false.
    intros x _. rewrite He, Hc, !sql_eq_null_r. reflexivity. }
  rewrite Hfind. cbn. rewrite length_app. cbn. split; [reflexivity | lia].
Qed.

Lemma create_customer_without_contacts_is_created_witness :
  cr_status (snd (create_customer (fun _ => true) no_customer_faults
                    (mkCustomerBody (Some "Ana"%string) None None None None
                                    None None None (Some pessoa_fisica) None)
                    scenario_customers)) = 201
  /\ List.length
       (customers
          (fst (create_customer (fun _ => true) no_customer_faults
                  (mkCustomerBody (Some "Ana"%string) None None None None
                                  None None None (Some pessoa_fisica) None)
                  scenario_customers)))
     = S (List.length (customers scenario_customers)).
Proof.
  apply create_customer_without_contacts_is_created.
  - discriminate.
  - reflexivity.
  - reflexivity.
Defined.

(** X21: a customer created by POST /customers gets the next id, is
    active, carries the fields of the body, is the customer in the 201
    answer and the one GET /customers/:id returns afterwards; the
    customers stored before are found as before. *)
Theorem created_customer_is_stored_active
        (isEmail : string -> bool) (F : CustomerFaults)
        (b : CustomerBody) (t : CustomersTable)
        (name : string) (ty : CustomerType) :
  customers_wf t ->
  valid_customer_body isEmail b = Some (name, ty) ->
  find_existing (b_email b) (b_cpf_cnpj b) t = None ->
  F (CSelectExisting (b_email b) (b_cpf_cnpj b)) = false ->
  F (CInsert b) = false ->
  F (CSelectCreated (customers_seq t + 1)) = false ->
  F (CSelectById (customers_seq t + 1)) = false ->
  let c := customer_of_body (customers_seq t + 1) name ty true b in
  let r := create_customer isEmail F b t in
  snd r = mkCustomerResponse 201 (ClienteCriado (Some c))
  /\ get_customer F (customers_seq t + 1) (fst r)
     = mkCustomerResponse 200 (ClienteJson c)
  /\ forall id x, find_customer id t = Some x ->
                  find_customer id (fst r) = Some x.
Proof.
  intros (_ & Hle & _) Hv Hfind H1 H2 H3 H4 c r. subst r.
  unfold create_customer. rewrite Hv, H1, Hfind, H2. cbn zeta. rewrite H3.
  cbn [fst snd]. unfold get_customer. rewrite H4.
  assert (Hnew : find_customer (customers_seq t + 1)
                   (mkCustomersTable (customers t ++ [c])
                                     (customers_seq t + 1)) = Some c).
  { rewrite (find_customer_app _ _ _ (customers_seq t)).
    replace (mkCustomersTable (customers t) (customers_seq t)) with t
      by (destruct t; reflexivity).
    rewrite find_customer_beyond by (assumption || lia).
    subst c. cbn. rewrite Z.eqb_refl. reflexivity. }
  fold c. rewrite Hnew. split; [reflexivity | split; [reflexivity|]].
  intros id x Hx. rewrite (find_customer_app _ _ _ (customers_seq t)).
  replace (mkCustomersTable (customers t) (customers_seq t)) with t
    by (destruct t; reflexivity).
  rewrite Hx. reflexivity.
Qed.

Lemma created_customer_is_stored_active_witness :
  let b := mkCustomerBody (Some "Ana"%string) (Some "ana@example.com"%string)
                          None None None None None None (Some pessoa_fisica)
                          None in
  let c := customer_of_body 3 "Ana" pessoa_fisica true b in
  let r := create_customer (fun _ => true) no_customer_faults b
                           scenario_customers in
  snd r = mkCustomerResponse 201 (ClienteCriado (Some c))
  /\ get_customer no_customer_faults 3 (fst r)
     = mkCustomerResponse 200 (ClienteJson c)
  /\ forall id x, find_customer id scenario_customers = Some x ->
                  find_customer id (fst r) = Some x.
Proof.
  apply (created_customer_is_stored_active (fun _ => true) no_customer_faults
           (mkCustomerBody (Some "Ana"%string)
                           (Some "ana@example.com"%string)
                           None None None None None None (Some pessoa_fisica)
                           None)
           scenario_customers "Ana" pessoa_fisica).
  - exact scenario_customers_wf.
  - reflexivity.
  - reflexivity.
  - reflexivity.
  - reflexivity.
  - reflexivity.
  - reflexivity.
Defined.

Lemma filter_by_id_empty (id : Z) (t : CustomersTable) :
  Nat.eqb (List.length (filter (fun c => c_id c =? id) (customers t))) 0
  = match find_customer id t with
    | Some _ => false
    | None => true
    end.
Proof.
  unfold find_customer. induction (customers t) as [|x l IH]; cbn.
  - reflexivity.
  - destruct (c_id x =? id); [reflexivity | assumption].
Qed.

Lemma map_untouched (id : Z) (f : Customer -> Customer) (l : list Customer) :
  find (fun c => c_id c =? id) l = None ->
  map (fun c => if c_id c =? id then f c else c) l = l.
Proof.
  induction l as [|x l IH]; cbn; [reflexivity|].
  destruct (c_id x =? id); [discriminate|]. intros H. rewrite IH by assumption.
  reflexivity.
Qed.

(** X22: DELETE /customers/:id is a soft delete.  It removes no row and
    changes no id; a stored customer is kept with [active] cleared and
    every other field as it was, and the answer is 200; an unknown id is
    answered 404 with the table as it was; customers of other ids are
    untouched. *)
Theorem delete_customer_is_soft
        (F : CustomerFaults) (id : Z) (t : CustomersTable) :
  F (CDeactivate id) = false ->
  let r := delete_customer F id t in
  map c_id (customers (fst r)) = map c_id (customers t)
  /\ (forall c, find_customer id t = Some c ->
                find_customer id (fst r) = Some (deactivate c)
                /\ snd r = mkCustomerResponse 200 ClienteDesativado)
  /\ (find_customer id t = None ->
      r = (t, mkCustomerResponse 404 ClienteNaoEncontrado))
  /\ (forall id', id' <> id ->
                  find_customer id' (fst r) = find_customer id' t).
Proof.
  intros HF r. subst r. unfold delete_customer. rewrite HF. cbn zeta.
  rewrite filter_by_id_empty.
  set (g := fun c => if c_id c =? id then deactivate c else c).
  assert (Hg : forall c, c_id (g c) = c_id c).
  { intros c. unfold g. destruct (c_id c =? id); reflexivity. }
  assert (Ht : mkCustomersTable (customers t) (customers_seq t) = t)
    by (destruct t; reflexivity).
  assert (Hfst : fst (if match find_customer id t with
                         | Some _ => false
                         | None => true
                         end
                      then (mkCustomersTable (map g (customers t))
                                             (customers_seq t),
                            mkCustomerResponse 404 ClienteNaoEncontrado)
                      else (mkCustomersTable (map g (customers t))
                                             (customers_seq t),
                            mkCustomerResponse 200 ClienteDesativado))
                 = mkCustomersTable (map g (customers t)) (customers_seq t)).
  { destruct (find_customer id t); reflexivity. }
  rewrite Hfst. cbn [customers]. split; [|split; [|split]].
  - apply map_keeps_ids. assumption.
  - intros c Hc. rewrite Hc. cbn [snd]. split; [|reflexivity].
    rewrite (find_customer_map id g _ (customers_seq t)) by assumption.
    rewrite Ht, Hc. cbn. unfold g.
    apply find_customer_in in Hc as [_ Hc]. apply Z.eqb_eq in Hc.
    rewrite Hc. reflexivity.
  - intros Hnone. rewrite Hnone. unfold g.
    rewrite map_untouched by exact Hnone. rewrite Ht. reflexivity.
  - intros id' Hid'.
    rewrite (find_customer_map id' g _ (customers_seq t)) by assumption.
    rewrite Ht. destruct (find_customer id' t) as [c|] eqn:Hc; [|reflexivity].
    cbn. unfold g. apply find_customer_in in Hc as [_ Hc].
    replace (c_id c =? id) with false by (symmetry; apply Z.eqb_neq; lia).
    reflexivity.
Qed.

Lemma delete_customer_is_soft_witness :
  let r := delete_customer no_customer_faults 1 scenario_customers in
  map c_id (customers (fst r)) = map c_id (customers scenario_customers)
  /\ (forall c, find_customer 1 scenario_customers = Some c ->
                find_customer 1 (fst r) = Some (deactivate c)
                /\ snd r = mkCustomerResponse 200 ClienteDesativado)
  /\ (find_customer 1 scenario_customers = None ->
      r = (scenario_customers, mkCustomerResponse 404 ClienteNaoEncontrado))
  /\ (forall id', id' <> 1 ->
                  find_customer id' (fst r)
                  = find_customer id' scenario_customers).
Proof.
  apply (delete_customer_is_soft no_customer_faults 1 scenario_customers).
  reflexivity.
Defined.

(** X23: DELETE /customers/:id can be repeated: deleting a customer that
    is already deactivated changes nothing and gets the same answer as
    the first time, 200 for a stored id and not 404. *)
Theorem delete_customer_again
        (F : CustomerFaults) (id : Z) (t : CustomersTable) :
  F (CDeactivate id) = false ->
  delete_customer F id (fst (delete_customer F id t))
  = delete_customer F id t.
Proof.
  intros HF. unfold delete_customer. rewrite HF. cbn zeta.
  assert (Hfst : forall (b : bool) (x : CustomersTable)
                        (r1 r2 : CustomerResponse),
             fst (if b then (x, r1) else (x, r2)) = x)
    by (intros []; reflexivity).
  rewrite Hfst. cbn [customers customers_seq].
  assert (Hmap : map (fun c => if c_id c =? id then deactivate c else c)
                     (map (fun c => if c_id c =? id then deactivate c else c)
                          (customers t))
                 = map (fun c => if c_id c =? id then deactivate c else c)
                       (customers t)).
  { rewrite map_map. apply map_ext. intros c.
    destruct (c_id c =? id) eqn:E; cbn; rewrite E; reflexivity. }
  assert (Hlen : List.length
                   (filter (fun c => c_id c =? id)
                      (map (fun c => if c_id c =? id then deactivate c else c)
                           (customers t)))
                 = List.length (filter (fun c => c_id c =? id) (customers t))).
  { clear Hmap. induction (customers t) as [|x l IH]; cbn; [reflexivity|].
    destruct (c_id x =? id) eqn:E; cbn; rewrite E; cbn; rewrite IH;
      reflexivity. }
  rewrite Hmap, Hlen. reflexivity.
Qed.

Lemma delete_customer_again_witness :
  delete_customer no_customer_faults 2
    (fst (delete_customer no_customer_faults 2 scenario_customers))
  = delete_customer no_customer_faults 2 scenario_customers.
Proof. apply delete_customer_again. reflexivity. Defined.

(** X24: PUT /customers/:id replaces the whole row.  With a valid body
    that clashes with no other customer, the stored customer becomes
    the body's fields under the same id: a field the body omits is
    stored as NULL, and unless [active] is the boolean false the
    customer is active afterwards, also when it was deactivated
    before. *)
Theorem update_customer_replaces_and_reactivates
        (isEmail : string -> bool) (F : CustomerFaults) (id : Z)
        (b : CustomerBody) (t : CustomersTable)
        (name : string) (ty : CustomerType) (old : Customer) :
  valid_customer_body isEmail b = Some (name, ty) ->
  find_customer id t = Some old ->
  find_existing_other (b_email b) (b_cpf_cnpj b) id t = None ->
  F (CSelectById id) = false ->
  F (CSelectExistingOther (b_email b) (b_cpf_cnpj b) id) = false ->
  F (CUpdate b id) = false ->
  F (CSelectUpdated id) = false ->
  b_active b <> Some false ->
  let r := update_customer isEmail F id b t in
  let c := customer_of_body id name ty true b in
  snd r = mkCustomerResponse 200 (ClienteAtualizado (Some c))
  /\ find_customer id (fst r) = Some c
  /\ map c_id (customers (fst r)) = map c_id (customers t).
Proof.
  intros Hv Hold Hfind H1 H2 H3 H4 Hact r c. subst r.
  unfold update_customer. rewrite Hv, H1, Hold, H2, Hfind, H3. cbn zeta.
  rewrite H4. cbn [fst snd customers].
  assert (Hflag : active_flag (b_active b) = true).
  { destruct (b_active b) as [[]|]; [reflexivity | congruence | reflexivity]. }
  rewrite Hflag.
  assert (Hnew : find_customer id
                   (mkCustomersTable
                      (map (fun x => if c_id x =? id
                                     then customer_of_body (c_id x) name ty
                                            true b
                                     else x)
                           (customers t))
                      (customers_seq t)) = Some c).
  { rewrite (find_customer_map id _ _ (customers_seq t)).
    - replace (mkCustomersTable (customers t) (customers_seq t)) with t
        by (destruct t; reflexivity).
      rewrite Hold. cbn. apply find_customer_in in Hold as [_ Hid].
      rewrite Hid, Z.eqb_refl. reflexivity.
    - intros x. destruct (c_id x =? id); reflexivity. }
  rewrite Hnew. split; [reflexivity | split; [reflexivity|]].
  apply map_keeps_ids. intros x. destruct (c_id x =? id); reflexivity.
Qed.

Lemma update_customer_replaces_and_reactivates_witness :
  let b := mkCustomerBody (Some "Joao P."%string) None None None None None
                          None None (Some pessoa_fisica) None in
  let r := update_customer (fun _ => true) no_customer_faults 2 b
                           scenario_customers in
  let c := customer_of_body 2 "Joao P." pessoa_fisica true b in
  snd r = mkCustomerResponse 200 (ClienteAtualizado (Some c))
  /\ find_customer 2 (fst r) = Some c
  /\ map c_id (customers (fst r)) = map c_id (customers scenario_customers).
Proof.
  apply (update_customer_replaces_and_reactivates (fun _ => true)
           no_customer_faults 2
           (mkCustomerBody (Some "Joao P."%string) None None None None None
                           None None (Some pessoa_fisica) None)
           scenario_customers "Joao P." pessoa_fisica
           (mkCustomer 2 "Joao Pereira"%string None (Some "5551999"%string)
                       None None None None None pessoa_fisica false)).
  - reflexivity.
  - reflexivity.
  - reflexivity.
  - reflexivity.
  - reflexivity.
  - reflexivity.
  - reflexivity.
  - discriminate.
Defined.

(** X25: a customer can be updated with its own email and CPF/CNPJ: in a
    well-formed table the check for other customers finds none, and PUT
    /customers/:id answers 200. *)
Theorem update_customer_accepts_own_contacts
        (isEmail : string -> bool) (id : Z)
        (b : CustomerBody) (t : CustomersTable) (old : Customer) :
  customers_wf t ->
  valid_customer_body isEmail b <> None ->
  find_customer id t = Some old ->
  b_email b = c_email old ->
  b_cpf_cnpj b = c_cpf_cnpj old ->
  cr_status (snd (update_customer isEmail no_customer_faults id b t)) = 200.
Proof.
  intros (_ & _ & Hcl) Hv Hold He Hc. unfold update_customer.
  destruct (valid_customer_body isEmail b) as [[name ty]|]; [|congruence].
  cbn [no_customer_faults]. rewrite Hold.
  assert (Hfind : find_existing_other (b_email b) (b_cpf_cnpj b) id t = None).
  { unfold find_existing_other. apply find_all_false. intros y Hy.
    destruct (c_id y =? id) eqn:E; cbn; [apply andb_false_r|].
    apply find_customer_in in Hold as [Hin Hid].
    destruct (Hcl y old Hy Hin) as [H1 H2]; [lia|].
    rewrite He, Hc, H1, H2. reflexivity. }
  rewrite Hfind. reflexivity.
Qed.

Lemma update_customer_accepts_own_contacts_witness :
  cr_status
    (snd (update_customer (fun _ => true) no_customer_faults 1
            (mkCustomerBody (Some "Serraria Boa Vista Ltda"%string)
                            (Some "contato@boavista.com"%string) None
                            (Some "12345678000199"%string) None None None
                            None (Some pessoa_juridica) None)
            scenario_customers)) = 200.
Proof.
  apply (update_customer_accepts_own_contacts (fun _ => true) 1 _
           scenario_customers
           (mkCustomer 1 "Serraria Boa Vista"%string
                       (Some "contato@boavista.com"%string) None
                       (Some "12345678000199"%string) None None None None
                       pessoa_juridica true)).
  - exact scenario_customers_wf.
  - discriminate.
  - reflexivity.
  - reflexivity.
  - reflexivity.
Defined.

(** ** Middleware and the soft delete of products *)

Lemma split_space_field (a s : string) :
  has_space a = false ->
  split_space (a ++ String space s)%string = a :: split_space s.
Proof.
  induction a as [|c a IH]; cbn [append has_space split_space].
  - intros _. rewrite Ascii.eqb_refl. reflexivity.
  - intros H. apply orb_false_iff in H as [Hc Ha].
    rewrite Hc, (IH Ha). reflexivity.
Qed.

Lemma split_space_last (a : string) :
  has_space a = false -> split_space a = [a].
Proof.
  induction a as [|c a IH]; cbn [has_space split_space].
  - reflexivity.
  - intros H. apply orb_false_iff in H as [Hc Ha].
    rewrite Hc, (IH Ha). reflexivity.
Qed.

Lemma nonempty_field (a s : string) :
  nonempty (a ++ String space s)%string = true.
Proof. destruct a; reflexivity. Qed.

Lemma nonempty_true (s : string) : s <> EmptyString -> nonempty s = true.
Proof. destruct s; [congruence | reflexivity]. Qed.

(** X26: [authenticateToken] takes the second space-separated field of the
    Authorization header as the token and verifies it.  The first field
    is not compared with "Bearer" and whatever follows a second space is
    ignored; a header with no space in it, like a missing header, is
    answered 401 without the verifier being asked. *)
Theorem authenticateToken_reads_second_field
        (jwt_verify : string -> option TokenUser)
        (scheme token rest : string) :
  has_space scheme = false ->
  has_space token = false ->
  token <> EmptyString ->
  let verdict := match jwt_verify token with
                 | None => inl (mkProductResponse 403 TokenInvalido)
                 | Some user => inr user
                 end in
  authenticateToken jwt_verify (Some (scheme ++ String space token)%string)
  = verdict
  /\ authenticateToken jwt_verify
       (Some (scheme ++ String space (token ++ String space rest))%string)
     = verdict
  /\ authenticateToken jwt_verify (Some token)
     = inl (mkProductResponse 401 TokenRequerido)
  /\ authenticateToken jwt_verify None
     = inl (mkProductResponse 401 TokenRequerido).
Proof.
  intros Hs Ht Hne verdict. subst verdict.
  unfold authenticateToken, header_token.
  rewrite !nonempty_field, !split_space_field by assumption.
  rewrite (split_space_last token Ht). cbn [nth_error].
  rewrite (nonempty_true token Hne). cbn [negb].
  repeat split; reflexivity.
Qed.

Lemma authenticateToken_reads_second_field_witness :
  let verdict := match scenario_verify "tok-admin" with
                 | None => inl (mkProductResponse 403 TokenInvalido)
                 | Some user => inr user
                 end in
  authenticateToken scenario_verify
    (Some ("Basic" ++ String space "tok-admin")%string) = verdict
  /\ authenticateToken scenario_verify
       (Some ("Basic" ++ String space ("tok-admin" ++ String space "x"))%string)
     = verdict
  /\ authenticateToken scenario_verify (Some "tok-admin"%string)
     = inl (mkProductResponse 401 TokenRequerido)
  /\ authenticateToken scenario_verify None
     = inl (mkProductResponse 401 TokenRequerido).
Proof.
  apply (authenticateToken_reads_second_field scenario_verify "Basic"
           "tok-admin" "x").
  - reflexivity.
  - reflexivity.
  - discriminate.
Defined.

(** X27: DELETE /products/:id changes the database only for a request
    whose token the verifier accepts with the role admin. *)
Theorem delete_product_route_needs_admin
        (jwt_verify : string -> option TokenUser)
        (authHeader : option string) (fails : bool) (productId : Z)
        (db : DB) :
  fst (delete_product_route jwt_verify authHeader fails productId db) <> db ->
  exists token user,
    header_token authHeader = Some token
    /\ jwt_verify token = Some user
    /\ tu_role user = "admin"%string.
Proof.
  unfold delete_product_route, authenticateToken, requireAdmin.
  destruct (header_token authHeader) as [token|]; [|cbn; congruence].
  destruct (negb (nonempty token)); [cbn; congruence|].
  destruct (jwt_verify token) as [user|] eqn:Hv; [|cbn; congruence].
  destruct (String.eqb (tu_role user) "admin") eqn:Hr; [|cbn; congruence].
  intros _. exists token, user. repeat split; [assumption|].
  apply String.eqb_eq. assumption.
Qed.

Lemma delete_product_route_needs_admin_witness :
  exists token user,
    header_token (Some ("Bearer" ++ String space "tok-admin")%string)
    = Some token
    /\ scenario_verify token = Some user
    /\ tu_role user = "admin"%string.
Proof.
  apply (delete_product_route_needs_admin scenario_verify
           (Some ("Bearer" ++ String space "tok-admin")%string) false 1
           scenario_db).
  vm_compute. discriminate.
Defined.

Lemma deleted_product_inactive (productId : Z) (db : DB) :
  find_active_product productId (fst (delete_product false productId db))
  = None.
Proof.
  unfold delete_product, find_active_product. cbn zeta.
  assert (Hfst : forall (b : bool) (x : DB) (r1 r2 : ProductResponse),
             fst (if b then (x, r1) else (x, r2)) = x)
    by (intros []; reflexivity).
  rewrite Hfst. cbn [products]. apply find_all_false.
  intros x Hx. apply in_map_iff in Hx as (p & <- & _).
  destruct (p_id p =? productId) eqn:E; cbn.
  - rewrite E. reflexivity.
  - rewrite E. reflexivity.
Qed.

(** X28: a product deactivated by DELETE /products/:id can no longer be
    sold, though its stock stays on the books: the inventory is as
    before, and POST /sales refuses every request with a line for the
    product and writes nothing. *)
Theorem deactivated_product_cannot_be_sold
        (F : Faults) (userId : Z) (req : SaleRequest) (db : DB)
        (productId : Z) (it : Item) :
  In it (items req) ->
  item_product_id it = productId ->
  let db' := fst (delete_product false productId db) in
  inventory db' = inventory db
  /\ exists r, create_sale F userId req db' = (db', Some r)
               /\ status r <> 201.
Proof.
  intros Hin Hid db'. split.
  - subst db'. unfold delete_product. cbn zeta.
    destruct (Nat.eqb _ 0); reflexivity.
  - destruct (valid_sale_request req) eqn:Hv.
    + assert (Hfail : exists r, line_check F db' it = inl r).
      { apply line_check_fails. left. rewrite Hid.
        apply deleted_product_inactive. }
      destruct Hfail as [r0 Hr0].
      pose proof (rejections_in F db' Hin Hr0) as Hne.
      destruct (rejections F db' (items req)) as [|r rs] eqn:Hrej;
        [congruence|].
      exists r. split; [now apply create_sale_rejected with rs|].
      destruct (rejections_first F db' Hrej)
        as [pre [bad [post [_ [_ Hc]]]]].
      destruct (line_check_rejected F db' bad r Hc)
        as [[_ ->]|[[_ ->]|[p [_ [_ ->]]]]]; cbn; lia.
    + unfold create_sale, create_sale_run. rewrite Hv.
      eexists. split; [reflexivity|]. cbn. lia.
Qed.

Lemma deactivated_product_cannot_be_sold_witness :
  let db' := fst (delete_product false 1 scenario_db) in
  inventory db' = inventory scenario_db
  /\ exists r, create_sale no_faults 9 (scenario_req [mkItem 2 1; mkItem 1 30])
                           db' = (db', Some r)
               /\ status r <> 201.
Proof.
  apply (deactivated_product_cannot_be_sold no_faults 9
           (scenario_req [mkItem 2 1; mkItem 1 30]) scenario_db 1
           (mkItem 1 30)).
  - cbn. auto.
  - reflexivity.
Defined.

(** ** The inventory summary *)

Lemma filter_length_le {A} (p q : A -> bool) (l : list A) :
  (forall x, In x l -> p x = true -> q x = true) ->
  (List.length (filter p l) <= List.length (filter q l))%nat.
Proof.
  induction l as [|x l IH]; cbn; [lia|]. intros H.
  assert (IH' : (List.length (filter p l) <= List.length (filter q l))%nat).
  { apply IH. intros y Hy. apply H. right. assumption. }
  destruct (p x) eqn:Hp.
  - rewrite (H x (or_introl eq_refl) Hp). cbn. lia.
  - destruct (q x); cbn; lia.
Qed.

Lemma active_stock_in (db : DB) (i : InventoryRow) (p : Product) :
  In (i, p) (active_stock db) -> In i (inventory db) /\ In p (products db).
Proof.
  unfold active_stock. intros H. apply in_flat_map in H as (i0 & Hi0 & H).
  apply in_map_iff in H as (p0 & Heq & Hp0). injection Heq as -> ->.
  apply filter_In in Hp0 as [Hp0 _]. split; assumption.
Qed.

(** X29: in the answer of GET /inventory/summary the items out of stock
    are among the low-stock items when no row has a negative minimum;
    the inventory value is not negative when no quantity and no price
    is; and the summary is answered whenever none of its four queries
    fails. *)
Theorem inventory_summary_is_consistent
        (F : SummaryQuery -> bool) (db : DB) :
  (forall q, F q = false) ->
  exists s,
    inventory_summary F db = Some s
    /\ (Forall (fun r => 0 <= i_min_stock r) (inventory db) ->
        out_of_stock_items s <= low_stock_items s)
    /\ (nonneg_inventory db ->
        Forall (fun p => 0 <= p_price p) (products db) ->
        0 <= total_inventory_value s).
Proof.
  intros HF. unfold inventory_summary. rewrite !HF. cbn [orb].
  eexists. split; [reflexivity|]. cbn [out_of_stock_items low_stock_items
                                        total_inventory_value]. split.
  - intros Hmin. unfold sql_count. apply Nat2Z.inj_le.
    apply filter_length_le. intros [i p] Hin Hz. cbn in *.
    apply active_stock_in in Hin as [Hi _].
    rewrite Forall_forall in Hmin. specialize (Hmin i Hi). cbn in Hmin.
    apply Z.eqb_eq in Hz. apply Z.leb_le. lia.
  - intros Hq Hp. unfold nonneg_inventory in Hq.
    rewrite Forall_forall in Hq, Hp.
    assert (Hall : forall ip, In ip (active_stock db) ->
                     0 <= i_quantity (fst ip) * p_price (snd ip)).
    { intros [i p] Hin. apply active_stock_in in Hin as [Hi Hpp].
      specialize (Hq i Hi). specialize (Hp p Hpp). cbn in *. nia. }
    induction (active_stock db) as [|x l IH]; cbn; [lia|].
    assert (0 <= i_quantity (fst x) * p_price (snd x))
      by (apply Hall; left; reflexivity).
    assert (0 <= fold_right
                   (fun ip acc => i_quantity (fst ip) * p_price (snd ip) + acc)
                   0 l)
      by (apply IH; intros ip Hip; apply Hall; right; assumption).
    lia.
Qed.

Lemma inventory_summary_is_consistent_witness :
  exists s,
    inventory_summary (fun _ => false) scenario_db = Some s
    /\ (Forall (fun r => 0 <= i_min_stock r) (inventory scenario_db) ->
        out_of_stock_items s <= low_stock_items s)
    /\ (nonneg_inventory scenario_db ->
        Forall (fun p => 0 <= p_price p) (products scenario_db) ->
        0 <= total_inventory_value s).
Proof.
  apply (inventory_summary_is_consistent (fun _ => false) scenario_db).
  reflexivity.
Defined.
